(** * Salary dashboard: the data pipeline of [dashboard.py]

    The script loads a table of data-science salaries, relabels three coded
    columns, coerces [remote_ratio] to integers, derives [country_iso3],
    filters the table by the five sidebar selections and feeds a handful of
    aggregations to the charts.  This development embeds that pipeline
    (normalisation, filtering, aggregation, the derived [remote_group]
    column) and states its properties.

    Conventions of the embedding:
    - a DataFrame is the list of its rows, in index order;
    - a row carries the columns the pipeline reads or writes; the other
      columns of the file are carried along untouched and are left out;
    - a missing cell (pandas' NaN, Python's None) is [None];
    - an exception is a [Raise] in the [result] monad;
    - [work_year], [remote_ratio] and [salary_in_usd] are integer columns
      without missing cells;
    - a float64 that is a number is the rational it denotes, in lowest
      terms, and NaN is a value of its own; a mean is the float64 quotient
      of the sum by the count, the sum being exact while the magnitudes of
      the salaries add up to at most 2^53;
    - the two library calls whose behaviour depends on data outside the
      script, the integer coercion of a raw cell and the pycountry lookup,
      are parameters of the normaliser. *)

From Stdlib Require Import ZArith QArith Qround Qreduction List String Ascii.
From Stdlib Require Import Bool Lia.
From Stdlib Require Import Sorted DecimalString Permutation OrderedTypeEx Lqa.
Import ListNotations.

Open Scope string_scope.
Open Scope list_scope.
Open Scope Z_scope.

(** ** Exceptions *)

Inductive exn : Type :=
| ValueError
| AttributeError
| LookupError.

Inductive result (A : Type) : Type :=
| Ok (a : A)
| Raise (e : exn).

Arguments Ok {A} a.
Arguments Raise {A} e.

Definition bind {A B : Type} (m : result A) (k : A -> result B) : result B :=
  match m with
  | Ok a => k a
  | Raise e => Raise e
  end.

Notation "x <- m ;; k" := (bind m (fun x => k))
  (at level 61, m at next level, right associativity).

(** [try: body except: handler] with a bare [except]. *)
Definition try_except {A : Type} (body : result A) (handler : A) : A :=
  match body with
  | Ok a => a
  | Raise _ => handler
  end.

(** ** The pandas operations the script uses *)

Module Pandas.

(** A Python dict with string keys, as the list of its items. *)
Definition dict : Type := list (string * string).

Fixpoint dict_get (d : dict) (k : string) : option string :=
  match d with
  | [] => None
  | (k', v) :: rest => if String.eqb k k' then Some v else dict_get rest k
  end.

(** [Series.map(d)]: a value that is no key of [d] becomes NaN. *)
Definition Series_map (d : dict) (col : list string) : list (option string) :=
  map (dict_get d) col.

(** [Series.astype(int)]: the whole column is converted, and the first
    value that cannot be converted raises. *)
Fixpoint astype_int {C : Type} (to_int : C -> option Z) (col : list C)
  : result (list Z) :=
  match col with
  | [] => Ok []
  | c :: rest =>
      match to_int c with
      | None => Raise ValueError
      | Some z => zs <- astype_int to_int rest ;; Ok (z :: zs)
      end
  end.

(** [Series.isin(values)]; NaN is found in a list that holds NaN. *)
Definition isin {A : Type} (eqb : A -> A -> bool) (x : A) (values : list A)
  : bool :=
  existsb (eqb x) values.

(** [Series.unique()]: the distinct values, in order of first appearance. *)
Fixpoint unique_acc {A : Type} (eqb : A -> A -> bool) (seen : list A)
  (col : list A) : list A :=
  match col with
  | [] => []
  | x :: rest =>
      if isin eqb x seen then unique_acc eqb seen rest
      else x :: unique_acc eqb (x :: seen) rest
  end.

Definition unique {A : Type} (eqb : A -> A -> bool) (col : list A) : list A :=
  unique_acc eqb [] col.

(** [pd.cut(x, bins, labels)] with the default [right=True] and
    [include_lowest=False]: the bins are (b0,b1], (b1,b2], ...; a value in
    none of them is NaN. *)
Fixpoint cut_from (x lo : Z) (edges : list Z) (labels : list string)
  : option string :=
  match edges, labels with
  | hi :: edges', lab :: labels' =>
      if (lo <? x) && (x <=? hi) then Some lab
      else cut_from x hi edges' labels'
  | _, _ => None
  end.

Definition cut (x : Z) (bins : list Z) (labels : list string)
  : option string :=
  match bins with
  | [] => None
  | lo :: edges => cut_from x lo edges labels
  end.

End Pandas.

(** Python's [sorted] on integers. *)
Fixpoint insert_sorted (x : Z) (l : list Z) : list Z :=
  match l with
  | [] => [x]
  | y :: rest => if x <=? y then x :: l else y :: insert_sorted x rest
  end.

Definition sorted (l : list Z) : list Z :=
  fold_right insert_sorted [] l.

(** Equality of cells: two missing cells count as equal, as in [isin]. *)
Definition option_string_eqb (a b : option string) : bool :=
  match a, b with
  | Some x, Some y => String.eqb x y
  | None, None => true
  | _, _ => false
  end.

(** ** Records *)

(** A row as [pd.read_csv] delivers it.  [C] is the type of a raw
    [remote_ratio] cell. *)
Record RawRow (C : Type) : Type := mkRawRow {
  raw_work_year : Z;
  raw_experience_level : string;
  raw_employment_type : string;
  raw_company_size : string;
  raw_remote_ratio : C;
  raw_employee_residence : string;
  raw_salary_in_usd : Z
}.

Arguments mkRawRow {C}.
Arguments raw_work_year {C}.
Arguments raw_experience_level {C}.
Arguments raw_employment_type {C}.
Arguments raw_company_size {C}.
Arguments raw_remote_ratio {C}.
Arguments raw_employee_residence {C}.
Arguments raw_salary_in_usd {C}.

(** A row of [df] after lines 17-28. *)
Record Row : Type := mkRow {
  work_year : Z;
  experience_level : option string;
  employment_type : option string;
  company_size : option string;
  remote_ratio : Z;
  employee_residence : string;
  salary_in_usd : Z;
  country_iso3 : option string
}.

Definition DataFrame : Type := list Row.

(** A pycountry entry. *)
Record Country : Type := mkCountry {
  alpha_2 : string;
  alpha_3 : string
}.

(** ** Normalisation (lines 17-28) *)

Definition experience_labels : Pandas.dict :=
  [("EN", "Junior"); ("MI", "Mid"); ("SE", "Senior"); ("EX", "Executive")].

Definition company_size_labels : Pandas.dict :=
  [("S", "Small"); ("M", "Medium"); ("L", "Large")].

Definition employment_labels : Pandas.dict :=
  [("FT", "Full-time"); ("PT", "Part-time"); ("CT", "Contract");
   ("FL", "Freelance")].

Section Normalizer.

(** The type of a raw [remote_ratio] cell and its conversion by [int];
    [None] when the conversion raises. *)
Variable C : Type.
Variable to_int : C -> option Z.

(** [pycountry.countries.get(alpha_2=...)]: an entry, Python's None, or an
    exception. *)
Variable countries_get : string -> result (option Country).

Definition iso2_to_iso3 (alpha2 : string) : option string :=
  try_except
    (found <- countries_get alpha2 ;;
     match found with
     | Some c => Ok (Some (alpha_3 c))
     | None => Raise AttributeError
     end)
    None.

Definition build_row (r : RawRow C) (ratio : Z) : Row :=
  {| work_year := raw_work_year r;
     experience_level :=
       Pandas.dict_get experience_labels (raw_experience_level r);
     employment_type :=
       Pandas.dict_get employment_labels (raw_employment_type r);
     company_size :=
       Pandas.dict_get company_size_labels (raw_company_size r);
     remote_ratio := ratio;
     employee_residence := raw_employee_residence r;
     salary_in_usd := raw_salary_in_usd r;
     country_iso3 := iso2_to_iso3 (raw_employee_residence r) |}.

Fixpoint build_rows (raw : list (RawRow C)) (ratios : list Z) : DataFrame :=
  match raw, ratios with
  | r :: raw', z :: ratios' => build_row r z :: build_rows raw' ratios'
  | _, _ => []
  end.

Definition normalize (raw : list (RawRow C)) : result DataFrame :=
  ratios <- Pandas.astype_int to_int (map raw_remote_ratio raw) ;;
  Ok (build_rows raw ratios).

End Normalizer.

Arguments iso2_to_iso3 countries_get alpha2 : assert.
Arguments build_row {C} countries_get r ratio.
Arguments build_rows {C} countries_get raw ratios.
Arguments normalize {C} to_int countries_get raw.

(** ** Sidebar and filter (lines 44-60) *)

Record Filters : Type := mkFilters {
  exp_filter : list (option string);
  size_filter : list (option string);
  remote_filter : Z * Z;
  country_filter : list string;
  year_filter : list Z
}.

(** The selections the widgets start with. *)
Definition default_filters (df : DataFrame) : Filters :=
  {| exp_filter := Pandas.unique option_string_eqb (map experience_level df);
     size_filter := Pandas.unique option_string_eqb (map company_size df);
     remote_filter := (0, 100);
     country_filter := Pandas.unique String.eqb (map employee_residence df);
     year_filter := sorted (Pandas.unique Z.eqb (map work_year df)) |}.

(** The boolean mask of lines 54-59, for one row. *)
Definition selected (f : Filters) (r : Row) : bool :=
  Pandas.isin option_string_eqb (experience_level r) (exp_filter f) &&
  Pandas.isin option_string_eqb (company_size r) (size_filter f) &&
  (remote_ratio r >=? fst (remote_filter f)) &&
  (remote_ratio r <=? snd (remote_filter f)) &&
  Pandas.isin String.eqb (employee_residence r) (country_filter f) &&
  Pandas.isin Z.eqb (work_year r) (year_filter f).

(** [df[mask]]: the rows whose mask entry is True, in order. *)
Fixpoint getitem_mask {A : Type} (rows : list A) (mask : list bool) : list A :=
  match rows, mask with
  | r :: rows', b :: mask' =>
      if b then r :: getitem_mask rows' mask' else getitem_mask rows' mask'
  | _, _ => []
  end.

Definition df_filtered (f : Filters) (df : DataFrame) : DataFrame :=
  getitem_mask df (map (selected f) df).

(** ** Scalar summary (lines 66-68) *)

(** A float result: a number or NaN. *)
Inductive num : Type :=
| Num (q : Q)
| NaN.

Definition Series_sum (col : list Z) : Z := fold_left Z.add col 0.

Definition Series_min (col : list Z) : num :=
  match col with
  | [] => NaN
  | x :: rest => Num (inject_Z (fold_left Z.min rest x))
  end.

Definition Series_max (col : list Z) : num :=
  match col with
  | [] => NaN
  | x :: rest => Num (inject_Z (fold_left Z.max rest x))
  end.

(** Rounding to the nearest integer, ties to even. *)
Definition round_half_even (q : Q) : Z :=
  let n := Qfloor q in
  match Qcompare ((q - inject_Z n) * 2) 1 with
  | Lt => n
  | Gt => n + 1
  | Eq => if Z.even n then n else n + 1
  end.

(** *** Double precision

    A float64 that is a number is modelled by the rational it denotes.
    None of the values the script computes leaves the range of normal
    doubles, so rounding keeps 53 significant bits whatever the exponent. *)

(** The exponent [e] with [2^e <= |n/d| < 2^(e+1)], for [n <> 0]. *)
Definition binary_exponent (n : Z) (d : positive) : Z :=
  let e := Z.log2 (Z.abs n) - Z.log2 (Zpos d) in
  if Z.abs n * 2 ^ Z.max 0 (- e) <? Zpos d * 2 ^ Z.max 0 e then e - 1 else e.

(** [q / 2^e]. *)
Definition scale (q : Q) (e : Z) : Q :=
  if 0 <=? e then q / inject_Z (2 ^ e) else q * inject_Z (2 ^ (- e)).

(** The double nearest to [q], ties to the even significand; the result is
    in lowest terms. *)
Definition round_double (q : Q) : Q :=
  let r := Qred q in
  if Qnum r =? 0 then 0%Q
  else
    let e := binary_exponent (Qnum r) (Qden r) - 52 in
    Qred (scale (inject_Z (round_half_even (scale r e))) (- e)).

(** The sum of the magnitudes of a column.  While it is at most 2^53, every
    partial sum of the column, in any order and grouping, is an integer that
    a double holds exactly, so the float64 sum pandas computes is the sum. *)
Definition magnitude (col : list Z) : Z :=
  fold_right (fun x acc => Z.abs x + acc) 0 col.

(** [Series.mean()] of an integer column: the float64 sum of the values
    divided in float64 by their number.  The sum is taken as exact, which
    is the case while [magnitude col <= 2^53]; the statements on means
    carry that bound. *)
Definition Series_mean (col : list Z) : num :=
  match col with
  | [] => NaN
  | _ :: _ =>
      Num (round_double
             (inject_Z (Series_sum col) / inject_Z (Z.of_nat (List.length col))))
  end.

(** A comma before every group of three digits, on the reversed digits. *)
Fixpoint group_thousands_rev (digits : list ascii) : list ascii :=
  match digits with
  | a :: b :: c :: (_ :: _) as rest =>
      a :: b :: c :: ","%char :: group_thousands_rev rest
  | _ => digits
  end.

Definition group_thousands (digits : string) : string :=
  string_of_list_ascii
    (rev (group_thousands_rev (rev (list_ascii_of_string digits)))).

(** The format specification [,.0f]: the value is converted to a double,
    which is then rounded to an integer and printed with separators. *)
Definition format_comma_0f (x : num) : string :=
  match x with
  | NaN => "nan"
  | Num q =>
      let d := round_double q in
      let digits :=
        NilZero.string_of_uint (N.to_uint (Z.abs_N (round_half_even d))) in
      ((if Qlt_le_dec d 0 then "-" else "") ++ group_thousands digits)%string
  end.

(** What the three [st.markdown] calls are given. *)
Definition summary_markdown (flt : DataFrame) : list string :=
  let col := map salary_in_usd flt in
  [ ("- **Salaire moyen** : $" ++ format_comma_0f (Series_mean col))%string;
    ("- **Salaire minimum** : $" ++ format_comma_0f (Series_min col))%string;
    ("- **Salaire maximum** : $" ++ format_comma_0f (Series_max col))%string ].

(** ** Group-by means (lines 77, 96, 116) *)

Section GroupBy.

Context {K : Type}.
Variable compare : K -> K -> comparison.

(** The groups are kept sorted by key; a row joins the end of its group. *)
Fixpoint add_to_group (k : K) (r : Row) (gs : list (K * DataFrame))
  : list (K * DataFrame) :=
  match gs with
  | [] => [(k, [r])]
  | (k', rs) :: rest =>
      match compare k k' with
      | Lt => (k, [r]) :: gs
      | Eq => (k', rs ++ [r]) :: rest
      | Gt => (k', rs) :: add_to_group k r rest
      end
  end.

(** [df.groupby(key)] with the defaults [sort=True], [dropna=True]. *)
Definition groupby (key : Row -> option K) (df : DataFrame)
  : list (K * DataFrame) :=
  fold_left
    (fun gs r =>
       match key r with
       | Some k => add_to_group k r gs
       | None => gs
       end)
    df [].

(** Does row [r] carry the key [k]? *)
Definition has_key (key : Row -> option K) (k : K) (r : Row) : bool :=
  match key r with
  | Some k' =>
      match compare k' k with
      | Eq => true
      | _ => false
      end
  | None => false
  end.

(** A group is well formed for [df] when it is not empty and holds the rows
    of [df] that carry its key, in their order. *)
Definition group_ok (key : Row -> option K) (df : DataFrame)
  (g : K * DataFrame) : Prop :=
  snd g <> [] /\ snd g = filter (has_key key (fst g)) df.

(** [df.groupby(key)['salary_in_usd'].mean().reset_index()]. *)
Definition groupby_mean (key : Row -> option K) (df : DataFrame)
  : list (K * num) :=
  map (fun g => (fst g, Series_mean (map salary_in_usd (snd g))))
      (groupby key df).

End GroupBy.

Definition mean_salary_year (flt : DataFrame) : list (Z * num) :=
  groupby_mean Z.compare (fun r => Some (work_year r)) flt.

Definition mean_salary_company (flt : DataFrame) : list (string * num) :=
  groupby_mean String.compare company_size flt.

Definition mean_salary_country (flt : DataFrame) : list (string * num) :=
  groupby_mean String.compare country_iso3 flt.

(** A row takes part in a group-by when it sits in one of the groups. *)
Definition in_groups {K : Type} (r : Row) (gs : list (K * DataFrame)) : Prop :=
  exists g, In g gs /\ In r (snd g).

(** ** The derived column (line 103) *)

Definition remote_bins : list Z := [0; 25; 50; 75; 100].

Definition remote_labels : list string :=
  ["0-25"; "26-50"; "51-75"; "76-100"].

Definition remote_group (ratio : Z) : option string :=
  Pandas.cut ratio remote_bins remote_labels.

(** ** DataFrame objects (lines 53-60 and 103)

    [df] and [df_filtered] are names of objects, and line 103 assigns a
    column into an object.  Objects live in a heap; a reference is the
    position of its object. *)

Record Frame : Type := mkFrame {
  frame_rows : DataFrame;
  frame_remote_group : option (list (option string))
}.

Definition ref : Type := nat.

Definition heap : Type := list Frame.

Definition prog (A : Type) : Type := heap -> option (A * heap).

Definition ret {A : Type} (a : A) : prog A := fun h => Some (a, h).

Definition pbind {A B : Type} (m : prog A) (k : A -> prog B) : prog B :=
  fun h =>
    match m h with
    | Some (a, h') => k a h'
    | None => None
    end.

Notation "x <~ m ;; k" := (pbind m (fun x => k))
  (at level 61, m at next level, right associativity).

Definition new (fr : Frame) : prog ref :=
  fun h => Some (List.length h, h ++ [fr]).

Definition deref (p : ref) : prog Frame :=
  fun h =>
    match nth_error h p with
    | Some fr => Some (fr, h)
    | None => None
    end.

Fixpoint replace_nth (p : nat) (fr : Frame) (h : heap) : heap :=
  match h, p with
  | [], _ => []
  | _ :: rest, O => fr :: rest
  | x :: rest, S p' => x :: replace_nth p' fr rest
  end.

Definition assign (p : ref) (fr : Frame) : prog unit :=
  fun h =>
    match nth_error h p with
    | Some _ => Some (tt, replace_nth p fr h)
    | None => None
    end.

(** [frame[mask]] builds a new object. *)
Definition frame_getitem (p : ref) (keep : Row -> bool) : prog ref :=
  fr <~ deref p ;;
  let mask := map keep (frame_rows fr) in
  new {| frame_rows := getitem_mask (frame_rows fr) mask;
         frame_remote_group :=
           option_map (fun col => getitem_mask col mask)
                      (frame_remote_group fr) |}.

(** [frame.copy()] builds a new object with the same contents. *)
Definition frame_copy (p : ref) : prog ref :=
  fr <~ deref p ;;
  new fr.

(** [frame['remote_group'] = pd.cut(frame['remote_ratio'], ...)] writes into
    the object [p] names. *)
Definition set_remote_group (p : ref) : prog unit :=
  fr <~ deref p ;;
  assign p
    {| frame_rows := frame_rows fr;
       frame_remote_group :=
         Some (map (fun r => remote_group (remote_ratio r)) (frame_rows fr)) |}.

(** Lines 53-60 followed by line 103; the result is [df_filtered]. *)
Definition filter_and_bucket (df : ref) (f : Filters) : prog ref :=
  masked <~ frame_getitem df (selected f) ;;
  flt <~ frame_copy masked ;;
  _ <~ set_remote_group flt ;;
  ret flt.

(** ** The page (the whole script, top to bottom)

    What the script hands to the presentation layer.  [select] stands for
    the user's choices in the sidebar, which may depend on the table because
    the widgets list its values. *)

Record Page : Type := mkPage {
  page_summary : list string;
  page_year : list (Z * num);
  page_company : list (string * num);
  page_remote_group : list (option string);
  page_country : list (string * num);
  page_table : DataFrame
}.

Definition dashboard {C : Type} (to_int : C -> option Z)
  (countries_get : string -> result (option Country))
  (select : DataFrame -> Filters) (raw : list (RawRow C)) : result Page :=
  df <- normalize to_int countries_get raw ;;
  let flt := df_filtered (select df) df in
  Ok {| page_summary := summary_markdown flt;
        page_year := mean_salary_year flt;
        page_company := mean_salary_company flt;
        page_remote_group := map (fun r => remote_group (remote_ratio r)) flt;
        page_country := mean_salary_country flt;
        page_table := flt |}.

(** ** The filter's contract, as the specification words it *)

(** The five predicates on one record. *)
Definition satisfies (f : Filters) (r : Row) : Prop :=
  In (experience_level r) (exp_filter f) /\
  In (company_size r) (size_filter f) /\
  fst (remote_filter f) <= remote_ratio r <= snd (remote_filter f) /\
  In (employee_residence r) (country_filter f) /\
  In (work_year r) (year_filter f).

(** The positions of the True entries of a mask, counted from 0. *)
Fixpoint mask_positions (mask : list bool) : list nat :=
  match mask with
  | [] => []
  | b :: mask' =>
      (if b then [O] else []) ++ map S (mask_positions mask')
  end.

(** [l1] is [l2] with some elements left out, the others in their order. *)
Inductive subsequence {A : Type} : list A -> list A -> Prop :=
| subsequence_nil : subsequence [] []
| subsequence_keep x l1 l2 : subsequence l1 l2 -> subsequence (x :: l1) (x :: l2)
| subsequence_drop x l1 l2 : subsequence l1 l2 -> subsequence l1 (x :: l2).

(** Every allowed set of [f] holds exactly the values observed in its
    column of [df], and the remote range is 0..100. *)
Definition all_observed (f : Filters) (df : DataFrame) : Prop :=
  (forall x, In x (exp_filter f) <-> In x (map experience_level df)) /\
  (forall x, In x (size_filter f) <-> In x (map company_size df)) /\
  remote_filter f = (0, 100) /\
  (forall x, In x (country_filter f) <-> In x (map employee_residence df)) /\
  (forall x, In x (year_filter f) <-> In x (map work_year df)).

(** Every allowed set and the remote range of [f1] lie within those of [f2]. *)
Definition filters_within (f1 f2 : Filters) : Prop :=
  incl (exp_filter f1) (exp_filter f2) /\
  incl (size_filter f1) (size_filter f2) /\
  (forall x, fst (remote_filter f1) <= x <= snd (remote_filter f1) ->
             fst (remote_filter f2) <= x <= snd (remote_filter f2)) /\
  incl (country_filter f1) (country_filter f2) /\
  incl (year_filter f1) (year_filter f2).

(** ** Reading a formatted number *)

(** The decimal digits of the magnitude of [z], without separators. *)
Definition decimal_digits (z : Z) : string :=
  NilZero.string_of_uint (N.to_uint (Z.abs_N z)).

(** The characters of [s] other than the thousands separator. *)
Definition without_commas (s : string) : list ascii :=
  filter (fun c => negb (Ascii.eqb c ",")) (list_ascii_of_string s).

(** ** The arithmetic mean, as the specification words it *)

(** [q] is the sum of the values divided by their number. *)
Definition arithmetic_mean_of (values : list Z) (q : Q) : Prop :=
  values <> [] /\
  Qeq (q * inject_Z (Z.of_nat (List.length values)))
      (inject_Z (fold_right Z.add 0 values)).

(** [q] is the double nearest to the sum of the values divided by their
    number. *)
Definition double_mean_of (values : list Z) (q : Q) : Prop :=
  values <> [] /\
  q = round_double
        (inject_Z (fold_right Z.add 0 values)
         / inject_Z (Z.of_nat (List.length values))).

(** ** Taking part in the scalar summary *)



(** ** Order of first appearance, as the sidebar lists its options *)

(** [listed] holds the values of [col] once each, and the values listed
    before a value are those that occur in [col] before its first
    occurrence. *)
Definition first_appearance_order {A : Type} (col listed : list A) : Prop :=
  NoDup listed /\
  (forall x, In x listed <-> In x col) /\
  (forall pre x post,
      col = pre ++ x :: post -> ~ In x pre ->
      exists before after,
        listed = before ++ x :: after /\
        (forall y, In y before <-> In y pre)).

(** ** The documented label tables, as the specification words them *)

Definition documented_experience (code : string) (label : option string) : Prop :=
  (code = "EN" -> label = Some "Junior") /\
  (code = "MI" -> label = Some "Mid") /\
  (code = "SE" -> label = Some "Senior") /\
  (code = "EX" -> label = Some "Executive") /\
  (~ In code ["EN"; "MI"; "SE"; "EX"] -> label = None).

Definition documented_company_size (code : string) (label : option string) : Prop :=
  (code = "S" -> label = Some "Small") /\
  (code = "M" -> label = Some "Medium") /\
  (code = "L" -> label = Some "Large") /\
  (~ In code ["S"; "M"; "L"] -> label = None).

Definition documented_employment (code : string) (label : option string) : Prop :=
  (code = "FT" -> label = Some "Full-time") /\
  (code = "PT" -> label = Some "Part-time") /\
  (code = "CT" -> label = Some "Contract") /\
  (code = "FL" -> label = Some "Freelance") /\
  (~ In code ["FT"; "PT"; "CT"; "FL"] -> label = None).

Definition labels_as_documented {C : Type} (r : RawRow C) (n : Row) : Prop :=
  documented_experience (raw_experience_level r) (experience_level n) /\
  documented_company_size (raw_company_size r) (company_size n) /\
  documented_employment (raw_employment_type r) (employment_type n).

(** ** Sample data used to exercise the statements *)

Module Sample.

(** A raw cell is an integer or a text that [int] rejects. *)
Definition cell : Type := (Z + string)%type.

Definition to_int (c : cell) : option Z :=
  match c with
  | inl z => Some z
  | inr _ => None
  end.

Definition countries_get (a : string) : result (option Country) :=
  if String.eqb a "FR" then Ok (Some (mkCountry "FR" "FRA"))
  else if String.eqb a "US" then Ok (Some (mkCountry "US" "USA"))
  else if String.eqb a "" then Raise LookupError
  else Ok None.

Definition raw_ok : list (RawRow cell) :=
  [ mkRawRow 2020 "EN" "FT" "S" (inl 0) "FR" 100;
    mkRawRow 2020 "MI" "PT" "XL" (inl 50) "XK" 200;
    mkRawRow 2021 "??" "FL" "L" (inl 100) "US" 300 ].

Definition raw_bad : list (RawRow cell) :=
  [ mkRawRow 2020 "EN" "FT" "S" (inl 0) "FR" 100;
    mkRawRow 2020 "MI" "PT" "M" (inr "half") "US" 200 ].

Definition junior : Row :=
  mkRow 2020 (Some "Junior") (Some "Full-time") (Some "Small") 0 "FR" 100
        (Some "FRA").

Definition mid : Row :=
  mkRow 2020 (Some "Mid") (Some "Part-time") None 50 "XK" 200 None.

Definition unlabelled : Row :=
  mkRow 2021 None (Some "Freelance") (Some "Large") 100 "US" 300
        (Some "USA").

Definition df : DataFrame := [junior; mid; unlabelled].

(** A row whose remote ratio is an integer above the slider's range. *)
Definition overtime : Row :=
  mkRow 2022 (Some "Senior") (Some "Full-time") (Some "Medium") 150 "US" 400
        (Some "USA").

(** Three rows of one year with salaries 1, 1 and 2. *)
Definition thirds : DataFrame :=
  [ mkRow 2020 (Some "Junior") (Some "Full-time") (Some "Small") 0 "FR" 1
          (Some "FRA");
    mkRow 2020 (Some "Junior") (Some "Full-time") (Some "Small") 0 "FR" 1
          (Some "FRA");
    mkRow 2020 (Some "Junior") (Some "Full-time") (Some "Small") 0 "FR" 2
          (Some "FRA") ].

(** The values observed in [df], listed in another order than the widgets
    list them. *)
Definition everything : Filters :=
  mkFilters [Some "Mid"; None; Some "Junior"] [None; Some "Large"; Some "Small"]
            (0, 100) ["US"; "XK"; "FR"] [2021; 2020].

Definition nothing_selected : Filters :=
  mkFilters [] [Some "Small"] (0, 100) ["FR"] [2020].

Definition narrow : Filters :=
  mkFilters [Some "Junior"] [Some "Small"; None] (0, 50) ["FR"; "XK"]
            [2020].

Definition wide : Filters :=
  mkFilters [Some "Junior"; Some "Mid"] [Some "Small"; None] (0, 100)
            ["FR"; "XK"; "US"] [2020; 2021].

End Sample.

(** * Properties *)

(** ** The normaliser *)

Lemma experience_labels_documented (code : string) :
  documented_experience code (Pandas.dict_get experience_labels code).
Proof.
  unfold documented_experience; repeat split; intros H;
    try (subst code; reflexivity).
  simpl in *.
  repeat match goal with
         | |- context [String.eqb code ?k] =>
             destruct (String.eqb_spec code k) as [E | _];
             [exfalso; apply H; rewrite E; simpl; tauto | ]
         end.
  reflexivity.
Qed.

Lemma company_size_labels_documented (code : string) :
  documented_company_size code (Pandas.dict_get company_size_labels code).
Proof.
  unfold documented_company_size; repeat split; intros H;
    try (subst code; reflexivity).
  simpl in *.
  repeat match goal with
         | |- context [String.eqb code ?k] =>
             destruct (String.eqb_spec code k) as [E | _];
             [exfalso; apply H; rewrite E; simpl; tauto | ]
         end.
  reflexivity.
Qed.

Lemma employment_labels_documented (code : string) :
  documented_employment code (Pandas.dict_get employment_labels code).
Proof.
  unfold documented_employment; repeat split; intros H;
    try (subst code; reflexivity).
  simpl in *.
  repeat match goal with
         | |- context [String.eqb code ?k] =>
             destruct (String.eqb_spec code k) as [E | _];
             [exfalso; apply H; rewrite E; simpl; tauto | ]
         end.
  reflexivity.
Qed.

Section NormalizerFacts.

Variable C : Type.
Variable to_int : C -> option Z.
Variable countries_get : string -> result (option Country).

Lemma astype_int_ok (col : list C) :
  Forall (fun c => to_int c <> None) col ->
  exists zs, Pandas.astype_int to_int col = Ok zs /\
             Forall2 (fun c z => to_int c = Some z) col zs.
Proof.
  induction 1 as [| c col Hc _ IH]; simpl.
  - exists []; split; [reflexivity | constructor].
  - destruct IH as (zs & -> & HF).
    destruct (to_int c) as [z |] eqn:E; [| congruence].
    exists (z :: zs); split; [reflexivity | constructor; assumption].
Qed.

Lemma astype_int_raise (col : list C) :
  Exists (fun c => to_int c = None) col ->
  Pandas.astype_int to_int col = Raise ValueError.
Proof.
  induction 1 as [c col Hc | c col _ IH]; simpl.
  - rewrite Hc; reflexivity.
  - destruct (to_int c); [rewrite IH |]; reflexivity.
Qed.

Lemma build_rows_spec (raw : list (RawRow C)) (zs : list Z) :
  Forall2 (fun c z => to_int c = Some z) (map raw_remote_ratio raw) zs ->
  Forall2 (fun r n => n = build_row countries_get r (remote_ratio n) /\
                      to_int (raw_remote_ratio r) = Some (remote_ratio n))
          raw (build_rows countries_get raw zs).
Proof.
  revert zs; induction raw as [| r raw IH]; intros zs H; simpl in *.
  - constructor.
  - inversion H as [| c z cs zs' Hz Hrest]; subst.
    constructor; [split; [reflexivity | exact Hz] | apply IH; exact Hrest].
Qed.

(** Normalisation succeeds exactly as the coercion of the column does, and
    then each row is [build_row] of its raw row. *)
Lemma normalize_ok (raw : list (RawRow C)) :
  Forall (fun r => to_int (raw_remote_ratio r) <> None) raw ->
  exists df, normalize to_int countries_get raw = Ok df /\
    Forall2 (fun r n => n = build_row countries_get r (remote_ratio n) /\
                        to_int (raw_remote_ratio r) = Some (remote_ratio n))
            raw df.
Proof.
  intros H.
  destruct (astype_int_ok (map raw_remote_ratio raw)) as (zs & E & HF).
  { rewrite Forall_map; exact H. }
  exists (build_rows countries_get raw zs); split.
  - unfold normalize; rewrite E; reflexivity.
  - apply build_rows_spec; exact HF.
Qed.

Lemma normalize_raise (raw : list (RawRow C)) :
  Exists (fun r => to_int (raw_remote_ratio r) = None) raw ->
  normalize to_int countries_get raw = Raise ValueError.
Proof.
  intros H; unfold normalize.
  rewrite astype_int_raise; [reflexivity |].
  rewrite Exists_map; exact H.
Qed.

Lemma astype_int_length (col : list C) (zs : list Z) :
  Pandas.astype_int to_int col = Ok zs -> List.length zs = List.length col.
Proof.
  revert zs; induction col as [| c col IH]; intros zs; simpl.
  - intros [= <-]; reflexivity.
  - destruct (to_int c); [| discriminate].
    destruct (Pandas.astype_int to_int col) as [zs' |]; simpl; [| discriminate].
    intros [= <-]; simpl; rewrite (IH zs' eq_refl); reflexivity.
Qed.

(** Row by row or column by column: the relabelled columns of the
    normalised table are [Series.map] of the raw columns, and the country
    column is [iso2_to_iso3] applied to the residence column. *)
Lemma normalize_columns (raw : list (RawRow C)) (df : DataFrame) :
  normalize to_int countries_get raw = Ok df ->
  map experience_level df
  = Pandas.Series_map experience_labels (map raw_experience_level raw) /\
  map company_size df
  = Pandas.Series_map company_size_labels (map raw_company_size raw) /\
  map employment_type df
  = Pandas.Series_map employment_labels (map raw_employment_type raw) /\
  map country_iso3 df
  = map (iso2_to_iso3 countries_get) (map raw_employee_residence raw).
Proof.
  unfold normalize, Pandas.Series_map.
  destruct (Pandas.astype_int to_int (map raw_remote_ratio raw)) as [zs |] eqn:E;
    simpl; [| discriminate].
  intros [= <-]; apply astype_int_length in E.
  rewrite length_map in E; rewrite !map_map.
  revert zs E; induction raw as [| r raw' IH]; intros zs E; simpl.
  - repeat split; reflexivity.
  - destruct zs as [| z zs]; [discriminate |].
    simpl in *; destruct (IH zs) as (H1 & H2 & H3 & H4); [lia |].
    rewrite H1, H2, H3, H4; repeat split; reflexivity.
Qed.

Lemma build_row_labels (r : RawRow C) (z : Z) :
  labels_as_documented r (build_row countries_get r z).
Proof.
  unfold labels_as_documented; simpl.
  auto using experience_labels_documented, company_size_labels_documented,
    employment_labels_documented.
Qed.

End NormalizerFacts.

(** C5. Whatever the codes are, normalisation of a table whose remote ratios
    convert succeeds, and every row's three labels are the documented ones:
    EN/MI/SE/EX become Junior/Mid/Senior/Executive, S/M/L become
    Small/Medium/Large, FT/PT/CT/FL become Full-time/Part-time/Contract/
    Freelance, and any other code becomes a missing label. *)
Theorem normalizer_labels (C : Type) (to_int : C -> option Z)
  (countries_get : string -> result (option Country)) (raw : list (RawRow C)) :
  Forall (fun r => to_int (raw_remote_ratio r) <> None) raw ->
  exists df, normalize to_int countries_get raw = Ok df /\
             Forall2 labels_as_documented raw df.
Proof.
  intros H.
  destruct (normalize_ok C to_int countries_get raw H) as (df & E & HF).
  exists df; split; [exact E |].
  eapply Forall2_impl; [| exact HF].
  intros r n [-> _]; apply build_row_labels.
Qed.

Lemma normalizer_labels_witness :
  exists df, normalize Sample.to_int Sample.countries_get Sample.raw_ok = Ok df /\
             Forall2 labels_as_documented Sample.raw_ok df.
Proof.
  apply (normalizer_labels Sample.cell Sample.to_int Sample.countries_get
           Sample.raw_ok).
  repeat constructor; discriminate.
Defined.

(** C8. If some [remote_ratio] of the loaded table does not convert to an
    integer, normalisation raises and so does the whole script, before
    anything is shown; if every value converts, normalisation succeeds and
    each row holds the integer its raw value converts to. *)
Theorem remote_ratio_coercion (C : Type) (to_int : C -> option Z)
  (countries_get : string -> result (option Country))
  (select : DataFrame -> Filters) (raw : list (RawRow C)) :
  (Exists (fun r => to_int (raw_remote_ratio r) = None) raw ->
   normalize to_int countries_get raw = Raise ValueError /\
   dashboard to_int countries_get select raw = Raise ValueError) /\
  (Forall (fun r => to_int (raw_remote_ratio r) <> None) raw ->
   exists df, normalize to_int countries_get raw = Ok df /\
     Forall2 (fun r n => to_int (raw_remote_ratio r) = Some (remote_ratio n))
             raw df).
Proof.
  split; intros H.
  - pose proof (normalize_raise C to_int countries_get raw H) as E.
    split; [exact E |].
    unfold dashboard; rewrite E; reflexivity.
  - destruct (normalize_ok C to_int countries_get raw H) as (df & E & HF).
    exists df; split; [exact E |].
    eapply Forall2_impl; [| exact HF].
    intros r n [_ Hn]; exact Hn.
Qed.

Lemma remote_ratio_coercion_witness :
  (normalize Sample.to_int Sample.countries_get Sample.raw_bad
   = Raise ValueError /\
   dashboard Sample.to_int Sample.countries_get default_filters Sample.raw_bad
   = Raise ValueError) /\
  (exists df,
      normalize Sample.to_int Sample.countries_get Sample.raw_ok = Ok df /\
      Forall2 (fun r n => Sample.to_int (raw_remote_ratio r)
                          = Some (remote_ratio n)) Sample.raw_ok df).
Proof.
  split.
  - apply (remote_ratio_coercion Sample.cell Sample.to_int
             Sample.countries_get default_filters Sample.raw_bad).
    apply Exists_cons_tl, Exists_cons_hd; reflexivity.
  - apply (remote_ratio_coercion Sample.cell Sample.to_int
             Sample.countries_get default_filters Sample.raw_ok).
    repeat constructor; discriminate.
Defined.

(** ** The scalar summary on an empty selection *)

Lemma summary_of_nothing :
  summary_markdown [] =
  [ "- **Salaire moyen** : $nan";
    "- **Salaire minimum** : $nan";
    "- **Salaire maximum** : $nan" ].
Proof. reflexivity. Qed.

(** C1, as the script behaves.  When the selection is empty the script
    raises nothing: mean, minimum and maximum of the empty salary column are
    each NaN, and the three summary lines are rendered from them as "$nan". *)
Theorem empty_selection_summary (C : Type) (to_int : C -> option Z)
  (countries_get : string -> result (option Country))
  (select : DataFrame -> Filters) (raw : list (RawRow C)) (df : DataFrame) :
  normalize to_int countries_get raw = Ok df ->
  df_filtered (select df) df = [] ->
  exists page,
    dashboard to_int countries_get select raw = Ok page /\
    page_table page = [] /\
    Series_mean (map salary_in_usd (page_table page)) = NaN /\
    Series_min (map salary_in_usd (page_table page)) = NaN /\
    Series_max (map salary_in_usd (page_table page)) = NaN /\
    page_summary page =
    [ "- **Salaire moyen** : $nan";
      "- **Salaire minimum** : $nan";
      "- **Salaire maximum** : $nan" ].
Proof.
  intros Hn He.
  unfold dashboard; rewrite Hn; simpl.
  eexists; split; [reflexivity |]; simpl.
  rewrite He; repeat split; reflexivity.
Qed.

Lemma empty_selection_summary_witness :
  exists page,
    dashboard Sample.to_int Sample.countries_get
              (fun _ => Sample.nothing_selected) Sample.raw_ok = Ok page /\
    page_table page = [] /\
    Series_mean (map salary_in_usd (page_table page)) = NaN /\
    Series_min (map salary_in_usd (page_table page)) = NaN /\
    Series_max (map salary_in_usd (page_table page)) = NaN /\
    page_summary page =
    [ "- **Salaire moyen** : $nan";
      "- **Salaire minimum** : $nan";
      "- **Salaire maximum** : $nan" ].
Proof.
  apply (empty_selection_summary Sample.cell Sample.to_int
           Sample.countries_get (fun _ => Sample.nothing_selected)
           Sample.raw_ok Sample.df); reflexivity.
Defined.

(** C1, as the specification words it, fails: with no experience level
    selected the filtered table is empty, no error is raised, and NaN
    reaches the currency-formatted lines. *)
Lemma empty_selection_renders_nan :
  df_filtered Sample.nothing_selected Sample.df = [] /\
  Series_mean (map salary_in_usd (df_filtered Sample.nothing_selected Sample.df))
  = NaN /\
  exists page,
    dashboard Sample.to_int Sample.countries_get
              (fun _ => Sample.nothing_selected) Sample.raw_ok = Ok page /\
    page_summary page =
    [ "- **Salaire moyen** : $nan";
      "- **Salaire minimum** : $nan";
      "- **Salaire maximum** : $nan" ].
Proof.
  split; [reflexivity |].
  split; [reflexivity |].
  eexists; split; reflexivity.
Qed.

(** ** The remote-ratio buckets *)

Lemma remote_group_cases (x : Z) :
  remote_group x =
  if x <=? 0 then None
  else if x <=? 25 then Some "0-25"
  else if x <=? 50 then Some "26-50"
  else if x <=? 75 then Some "51-75"
  else if x <=? 100 then Some "76-100"
  else None.
Proof.
  unfold remote_group, remote_bins, remote_labels; simpl.
  repeat match goal with
         | |- context [?a <? ?b] => destruct (Z.ltb_spec a b)
         | |- context [?a <=? ?b] => destruct (Z.leb_spec a b)
         end; simpl; try reflexivity; lia.
Qed.

(** C3. With the bins (0,25], (25,50], (50,75], (75,100], a remote ratio of
    0 gets none of the four labels, 25 falls in "0-25" and 26 in "26-50".
    More generally a ratio gets no label exactly when it is at most 0 or
    above 100, and each label is given exactly on its interval, open on the
    left and closed on the right. *)
Theorem remote_group_boundaries :
  remote_group 0 = None /\
  remote_group 25 = Some "0-25" /\
  remote_group 26 = Some "26-50" /\
  (forall x, remote_group x = None <-> x <= 0 \/ 100 < x) /\
  (forall x, remote_group x = Some "0-25" <-> 0 < x <= 25) /\
  (forall x, remote_group x = Some "26-50" <-> 25 < x <= 50) /\
  (forall x, remote_group x = Some "51-75" <-> 50 < x <= 75) /\
  (forall x, remote_group x = Some "76-100" <-> 75 < x <= 100).
Proof.
  split; [reflexivity |].
  split; [reflexivity |].
  split; [reflexivity |].
  repeat apply conj; intros x; rewrite remote_group_cases;
    repeat match goal with
           | |- context [?a <=? ?b] => destruct (Z.leb_spec a b)
           end;
    split; intros Hx; try discriminate Hx; try reflexivity; lia.
Qed.

(** ** The filter *)

Lemma option_string_eqb_eq (a b : option string) :
  option_string_eqb a b = true <-> a = b.
Proof.
  destruct a as [x |], b as [y |]; simpl; try (split; congruence).
  rewrite String.eqb_eq; split; congruence.
Qed.

Section IsIn.

Context {A : Type}.
Variable eqb : A -> A -> bool.
Hypothesis eqb_eq : forall a b, eqb a b = true <-> a = b.

Lemma isin_In (x : A) (values : list A) :
  Pandas.isin eqb x values = true <-> In x values.
Proof.
  unfold Pandas.isin; rewrite existsb_exists; split.
  - intros (y & Hy & E); apply eqb_eq in E; subst; exact Hy.
  - intros H; exists x; split; [exact H | apply eqb_eq; reflexivity].
Qed.

Lemma unique_acc_keeps (x : A) (col seen : list A) :
  In x col -> In x seen \/ In x (Pandas.unique_acc eqb seen col).
Proof.
  revert seen; induction col as [| y rest IH]; intros seen H; simpl in *.
  - contradiction.
  - destruct (Pandas.isin eqb y seen) eqn:E.
    + destruct H as [-> | H]; [left; apply isin_In; exact E | apply IH; exact H].
    + destruct H as [-> | H]; [right; left; reflexivity |].
      destruct (IH (y :: seen) H) as [[-> | Hs] | Hu].
      * right; left; reflexivity.
      * left; exact Hs.
      * right; right; exact Hu.
Qed.

Lemma unique_keeps (x : A) (col : list A) :
  In x col -> In x (Pandas.unique eqb col).
Proof.
  intros H; destruct (unique_acc_keeps x col [] H) as [[] | Hu]; exact Hu.
Qed.

End IsIn.

Lemma insert_sorted_In (x y : Z) (l : list Z) :
  In y (insert_sorted x l) <-> y = x \/ In y l.
Proof.
  induction l as [| z l IH]; simpl.
  - intuition.
  - destruct (x <=? z); simpl; [intuition |].
    rewrite IH; intuition.
Qed.

Lemma sorted_In (y : Z) (l : list Z) : In y (sorted l) <-> In y l.
Proof.
  induction l as [| x l IH]; simpl; [tauto |].
  rewrite insert_sorted_In, IH; intuition.
Qed.

Lemma selected_satisfies (f : Filters) (r : Row) :
  selected f r = true <-> satisfies f r.
Proof.
  unfold selected, satisfies.
  rewrite !andb_true_iff, !(isin_In _ option_string_eqb_eq),
    (isin_In _ String.eqb_eq), (isin_In _ Z.eqb_eq), Z.geb_le, Z.leb_le.
  tauto.
Qed.

Lemma getitem_mask_filter {A : Type} (keep : A -> bool) (rows : list A) :
  getitem_mask rows (map keep rows) = filter keep rows.
Proof.
  induction rows as [| r rows IH]; simpl; [reflexivity |].
  rewrite IH; reflexivity.
Qed.

Lemma df_filtered_filter (f : Filters) (df : DataFrame) :
  df_filtered f df = filter (selected f) df.
Proof. apply getitem_mask_filter. Qed.

(** The rows a mask keeps are the rows at its True positions, and those
    positions increase strictly. *)
Lemma mask_positions_spec {A : Type} (keep : A -> bool) (rows : list A) :
  StronglySorted lt (mask_positions (map keep rows)) /\
  (forall i, In i (mask_positions (map keep rows)) <->
             exists r, nth_error rows i = Some r /\ keep r = true) /\
  map (nth_error rows) (mask_positions (map keep rows))
  = map Some (filter keep rows).
Proof.
  induction rows as [| x rows (Hs & Hin & Hmap)]; simpl.
  - split; [constructor |]; split; [| reflexivity].
    intros i; split; [contradiction |].
    intros (r & H & _); destruct i; discriminate.
  - assert (Hshift : StronglySorted lt (map S (mask_positions (map keep rows)))).
    { clear Hin Hmap; induction Hs as [| j js _ IH Hj]; simpl; constructor.
      - exact IH.
      - rewrite Forall_map; eapply Forall_impl; [| exact Hj].
        intros k Hk; simpl; lia. }
    assert (Htail : forall i, In i (map S (mask_positions (map keep rows))) <->
                    exists j r, i = S j /\ nth_error rows j = Some r /\
                                keep r = true).
    { intros i; rewrite in_map_iff; split.
      - intros (j & <- & Hj); apply Hin in Hj; destruct Hj as (r & Hr & Hk).
        exists j, r; auto.
      - intros (j & r & -> & Hr & Hk); exists j; split; [reflexivity |].
        apply Hin; exists r; auto. }
    assert (Hnth : map (nth_error (x :: rows))
                     (map S (mask_positions (map keep rows)))
                   = map Some (filter keep rows)).
    { rewrite map_map; simpl; exact Hmap. }
    destruct (keep x) eqn:Ex; simpl.
    + split; [| split].
      * constructor; [exact Hshift |].
        rewrite Forall_map, Forall_forall; intros j _; lia.
      * intros i; rewrite Htail; split.
        -- intros [<- | (j & r & -> & Hr & Hk)]; simpl; eauto.
        -- intros (r & Hr & Hk); destruct i as [| j]; [left; reflexivity |].
           right; exists j, r; auto.
      * f_equal; exact Hnth.
    + split; [exact Hshift | split; [| exact Hnth]].
      intros i; rewrite Htail; split.
      * intros (j & r & -> & Hr & Hk); simpl; eauto.
      * intros (r & Hr & Hk); destruct i as [| j]; simpl in Hr.
        -- injection Hr as <-; congruence.
        -- exists j, r; auto.
Qed.

(** C2. For every choice of filters, every row of the result satisfies the
    five predicates, and the result consists of the rows of the table at
    the positions of the satisfying rows, each position taken once, in
    increasing order. *)
Theorem filter_sound_complete (f : Filters) (df : DataFrame) :
  Forall (satisfies f) (df_filtered f df) /\
  exists positions : list nat,
    StronglySorted lt positions /\
    (forall i, In i positions <->
               exists r, nth_error df i = Some r /\ satisfies f r) /\
    map (nth_error df) positions = map Some (df_filtered f df).
Proof.
  split.
  - rewrite df_filtered_filter, Forall_forall; intros r Hr.
    apply filter_In in Hr; apply selected_satisfies, Hr.
  - destruct (mask_positions_spec (selected f) df) as (Hs & Hin & Hmap).
    exists (mask_positions (map (selected f) df)); split; [exact Hs |].
    split; [| rewrite df_filtered_filter; exact Hmap].
    intros i; rewrite Hin; split; intros (r & Hr & Hk); exists r;
      (split; [exact Hr | apply selected_satisfies; exact Hk]).
Qed.

Lemma default_filters_select (df : DataFrame) (r : Row) :
  In r df -> 0 <= remote_ratio r <= 100 ->
  selected (default_filters df) r = true.
Proof.
  intros Hr Hratio; apply selected_satisfies.
  unfold satisfies, default_filters; simpl.
  repeat split; try lia.
  - apply (unique_keeps _ option_string_eqb_eq), in_map, Hr.
  - apply (unique_keeps _ option_string_eqb_eq), in_map, Hr.
  - apply (unique_keeps _ String.eqb_eq), in_map, Hr.
  - apply sorted_In, (unique_keeps _ Z.eqb_eq), in_map, Hr.
Qed.

Lemma filter_all {A : Type} (keep : A -> bool) (l : list A) :
  Forall (fun x => keep x = true) l -> filter keep l = l.
Proof.
  induction 1 as [| x l Hx _ IH]; simpl; [reflexivity |].
  rewrite Hx, IH; reflexivity.
Qed.

Lemma unique_from {A : Type} (eqb : A -> A -> bool) (x : A) (col : list A) :
  In x (Pandas.unique eqb col) -> In x col.
Proof.
  unfold Pandas.unique; generalize (@nil A).
  induction col as [| y rest IH]; intros seen H; simpl in *; [contradiction |].
  destruct (Pandas.isin eqb y seen).
  - right; exact (IH seen H).
  - destruct H as [<- | H]; [left; reflexivity | right; exact (IH _ H)].
Qed.

Lemma default_filters_observed (df : DataFrame) :
  all_observed (default_filters df) df.
Proof.
  unfold all_observed, default_filters; simpl.
  split; [| split; [| split; [reflexivity | split]]].
  - intros x; split;
      [apply unique_from | apply unique_keeps, option_string_eqb_eq].
  - intros x; split;
      [apply unique_from | apply unique_keeps, option_string_eqb_eq].
  - intros x; split; [apply unique_from | apply unique_keeps, String.eqb_eq].
  - intros x; rewrite sorted_In; split;
      [apply unique_from | apply unique_keeps, Z.eqb_eq].
Qed.

(** C4. On a table of the data model (every remote ratio within 0..100),
    whenever each allowed set holds exactly the values observed in its
    column and the remote range is 0..100, the filtered table is the whole
    table, rows in their order.  The selections the widgets start with are
    such filters. *)
Theorem observed_filters_keep_all (f : Filters) (df : DataFrame) :
  Forall (fun r => 0 <= remote_ratio r <= 100) df ->
  all_observed f df ->
  df_filtered f df = df /\
  all_observed (default_filters df) df /\
  df_filtered (default_filters df) df = df.
Proof.
  intros Hrange Hobs.
  assert (Hall : forall g, all_observed g df -> df_filtered g df = df).
  { intros g (He & Hs & Hr & Hc & Hy).
    rewrite df_filtered_filter; apply filter_all.
    rewrite Forall_forall in *; intros r Hr'.
    apply selected_satisfies; unfold satisfies; rewrite Hr; simpl.
    specialize (Hrange r Hr').
    repeat split; try lia;
      first [ apply He | apply Hs | apply Hc | apply Hy ];
      apply in_map; exact Hr'. }
  split; [apply Hall; exact Hobs |].
  split; [apply default_filters_observed |].
  apply Hall, default_filters_observed.
Qed.

Lemma observed_filters_keep_all_witness :
  df_filtered Sample.everything Sample.df = Sample.df /\
  all_observed (default_filters Sample.df) Sample.df /\
  df_filtered (default_filters Sample.df) Sample.df = Sample.df.
Proof.
  apply (observed_filters_keep_all Sample.everything Sample.df).
  - repeat constructor; simpl; lia.
  - unfold all_observed; simpl; repeat split; intros H; tauto.
Defined.

(** The bound on the remote ratios is needed: the slider cannot reach a
    ratio outside 0..100, so a row that holds one is dropped even by the
    initial selections. *)
Lemma default_filters_drop_out_of_range :
  df_filtered (default_filters [Sample.junior; Sample.overtime])
              [Sample.junior; Sample.overtime]
  = [Sample.junior] /\
  [Sample.junior] <> [Sample.junior; Sample.overtime].
Proof.
  split; [reflexivity | discriminate].
Qed.

Lemma filter_subsequence {A : Type} (p q : A -> bool) (l : list A) :
  (forall x, In x l -> p x = true -> q x = true) ->
  subsequence (filter p l) (filter q l).
Proof.
  induction l as [| x l IH]; intros H; simpl.
  - constructor.
  - assert (IH' : subsequence (filter p l) (filter q l)).
    { apply IH; intros y Hy; apply H; right; exact Hy. }
    destruct (p x) eqn:Ep.
    + rewrite (H x (or_introl eq_refl) Ep); constructor; exact IH'.
    + destruct (q x); [constructor |]; exact IH'.
Qed.

Lemma satisfies_within (f1 f2 : Filters) (r : Row) :
  filters_within f1 f2 -> satisfies f1 r -> satisfies f2 r.
Proof.
  intros (He & Hs & Hr & Hc & Hy) (H1 & H2 & H3 & H4 & H5).
  unfold satisfies; repeat split; auto; apply Hr; exact H3.
Qed.

(** C10. When every allowed set of [f1] is included in that of [f2] and the
    remote range of [f1] lies within that of [f2], the table filtered by
    [f1] is a subsequence of the table filtered by [f2]. *)
Theorem filter_monotone (f1 f2 : Filters) (df : DataFrame) :
  filters_within f1 f2 ->
  subsequence (df_filtered f1 df) (df_filtered f2 df).
Proof.
  intros H; rewrite !df_filtered_filter.
  apply filter_subsequence; intros r _ Hr.
  apply selected_satisfies, (satisfies_within f1 f2 r H),
    selected_satisfies, Hr.
Qed.

Lemma filter_monotone_witness :
  subsequence (df_filtered Sample.narrow Sample.df)
              (df_filtered Sample.wide Sample.df).
Proof.
  apply (filter_monotone Sample.narrow Sample.wide Sample.df).
  unfold filters_within, incl; simpl.
  repeat split; try lia; intros a Ha; intuition.
Defined.

(** ** Group-by *)

Lemma filter_snoc {A : Type} (p : A -> bool) (l : list A) (x : A) :
  filter p (l ++ [x]) = filter p l ++ (if p x then [x] else []).
Proof. rewrite filter_app; reflexivity. Qed.

Lemma filter_none {A : Type} (p : A -> bool) (l : list A) :
  (forall x, In x l -> p x = false) -> filter p l = [].
Proof.
  induction l as [| x l IH]; intros H; simpl; [reflexivity |].
  rewrite (H x (or_introl eq_refl)); apply IH.
  intros y Hy; apply H; right; exact Hy.
Qed.

Section GroupByFacts.

Context {K : Type}.
Variable compare : K -> K -> comparison.
Variable lt : K -> K -> Prop.
Hypothesis compare_spec :
  forall a b, CompareSpec (a = b) (lt a b) (lt b a) (compare a b).
Hypothesis lt_irrefl : forall a, ~ lt a a.
Hypothesis lt_trans : forall a b c, lt a b -> lt b c -> lt a c.
Variable key : Row -> option K.

Lemma has_key_true (k : K) (r : Row) :
  has_key compare key k r = true <-> key r = Some k.
Proof.
  unfold has_key; destruct (key r) as [k' |]; [| split; discriminate].
  destruct (compare_spec k' k) as [E | L | L].
  - subst; tauto.
  - split; [discriminate |].
    intros [= E]; subst; exfalso; exact (lt_irrefl _ L).
  - split; [discriminate |].
    intros [= E]; subst; exfalso; exact (lt_irrefl _ L).
Qed.

Lemma has_key_other (k k' : K) (r : Row) :
  key r = Some k -> k' <> k -> has_key compare key k' r = false.
Proof.
  intros Hr Hne; destruct (has_key compare key k' r) eqn:E; [| reflexivity].
  apply has_key_true in E; congruence.
Qed.

Lemma group_ok_other (rows : DataFrame) (r : Row) (k : K) (g : K * DataFrame) :
  key r = Some k -> fst g <> k ->
  group_ok compare key rows g -> group_ok compare key (rows ++ [r]) g.
Proof.
  intros Hr Hne [Hn Hg]; split; [exact Hn |].
  rewrite filter_snoc, (has_key_other k (fst g) r Hr Hne), app_nil_r; exact Hg.
Qed.

Lemma group_ok_skip (rows : DataFrame) (r : Row) (g : K * DataFrame) :
  key r = None ->
  group_ok compare key rows g -> group_ok compare key (rows ++ [r]) g.
Proof.
  intros Hr [Hn Hg]; split; [exact Hn |].
  rewrite filter_snoc; unfold has_key at 2; rewrite Hr, app_nil_r; exact Hg.
Qed.

Lemma add_to_group_spec (k : K) (r : Row) (rows : DataFrame)
  (gs : list (K * DataFrame)) :
  key r = Some k ->
  StronglySorted lt (map fst gs) ->
  Forall (group_ok compare key rows) gs ->
  (~ In k (map fst gs) -> filter (has_key compare key k) rows = []) ->
  StronglySorted lt (map fst (add_to_group compare k r gs)) /\
  Forall (group_ok compare key (rows ++ [r])) (add_to_group compare k r gs) /\
  (forall k', In k' (map fst (add_to_group compare k r gs)) <->
              k' = k \/ In k' (map fst gs)).
Proof.
  intros Hr.
  assert (Hself : has_key compare key k r = true) by (apply has_key_true; exact Hr).
  induction gs as [| [k0 rs] rest IH]; intros Hs Hok Hfresh; simpl in *.
  - split; [repeat constructor |]; split; [| intros k'; intuition congruence].
    constructor; [| constructor]; split; simpl; [discriminate |].
    rewrite filter_snoc, Hself, Hfresh by tauto; reflexivity.
  - inversion Hs as [| ? ? Hs' Hlt]; subst.
    inversion Hok as [| ? ? [Hne Hrs] Hok']; subst; simpl in *.
    assert (Hrest : forall g, In g rest -> lt k0 (fst g)).
    { intros g Hg; rewrite Forall_forall in Hlt; apply Hlt, in_map, Hg. }
    destruct (compare_spec k k0) as [E | L | L]; simpl.
    + subst k0; split; [exact Hs |]; split; [| intros k'; intuition congruence].
      constructor.
      * split; simpl; [destruct rs; discriminate |].
        rewrite filter_snoc, Hself, <- Hrs; reflexivity.
      * rewrite Forall_forall in *; intros g Hg.
        apply (group_ok_other rows r k g Hr); [| apply Hok'; exact Hg].
        intros E; apply (lt_irrefl k); rewrite <- E at 2; apply Hrest, Hg.
    + assert (Hall : Forall (lt k) (k0 :: map fst rest)).
      { constructor; [exact L |].
        eapply Forall_impl; [| exact Hlt].
        intros a Ha; exact (lt_trans _ _ _ L Ha). }
      assert (Hnot : ~ In k (k0 :: map fst rest)).
      { intros Hin; rewrite Forall_forall in Hall.
        exact (lt_irrefl k (Hall k Hin)). }
      split; [constructor; assumption |]; split; [| intros k'; intuition congruence].
      constructor.
      * split; simpl; [discriminate |].
        rewrite filter_snoc, Hself, (Hfresh Hnot); reflexivity.
      * rewrite Forall_forall; intros g Hg.
        apply (group_ok_other rows r k g Hr);
          [| rewrite Forall_forall in Hok; apply Hok; exact Hg].
        intros E; apply Hnot; rewrite <- E.
        change (In (fst g) (map fst ((k0, rs) :: rest))); apply in_map, Hg.
    + assert (Hk0 : k0 <> k).
      { intros E; subst; exact (lt_irrefl _ L). }
      destruct (IH Hs' Hok') as (Hs2 & Hok2 & Hkeys).
      { intros Hn; apply Hfresh; intros [E | Hin]; [exact (Hk0 E) | exact (Hn Hin)]. }
      split; [| split].
      * constructor; [exact Hs2 |].
        rewrite Forall_forall; intros a Ha; apply Hkeys in Ha.
        destruct Ha as [-> | Ha]; [exact L |].
        rewrite Forall_forall in Hlt; apply Hlt, Ha.
      * constructor; [| exact Hok2].
        apply (group_ok_other rows r k (k0, rs) Hr Hk0); split; assumption.
      * intros k'; rewrite Hkeys; intuition congruence.
Qed.

(** The invariant of the fold in [groupby]. *)
Lemma groupby_grouped (rows : DataFrame) :
  StronglySorted lt (map fst (groupby compare key rows)) /\
  Forall (group_ok compare key rows) (groupby compare key rows) /\
  (forall r k, In r rows -> key r = Some k ->
               In k (map fst (groupby compare key rows))).
Proof.
  induction rows as [| r rows (Hs & Hok & Hkeys)] using rev_ind.
  - split; [constructor |]; split; [constructor | intros r k []].
  - unfold groupby in *; rewrite fold_left_app; simpl.
    set (gs := fold_left _ rows []) in *.
    destruct (key r) as [k |] eqn:Hr.
    + destruct (add_to_group_spec k r rows gs Hr Hs Hok) as (Hs2 & Hok2 & Hk2).
      { intros Hn; apply filter_none; intros x Hx.
        destruct (has_key compare key k x) eqn:E; [| reflexivity].
        apply has_key_true in E; exfalso; exact (Hn (Hkeys x k Hx E)). }
      split; [exact Hs2 |]; split; [exact Hok2 |].
      intros r' k' Hin Hk'; apply Hk2.
      apply in_app_or in Hin; destruct Hin as [Hin | [<- | []]].
      * right; exact (Hkeys r' k' Hin Hk').
      * left; congruence.
    + split; [exact Hs |]; split.
      * eapply Forall_impl; [| exact Hok].
        intros g; apply group_ok_skip; exact Hr.
      * intros r' k' Hin Hk'.
        apply in_app_or in Hin; destruct Hin as [Hin | [<- | []]];
          [exact (Hkeys r' k' Hin Hk') | congruence].
Qed.

(** The table of means, read off the invariant. *)
Lemma groupby_mean_spec (rows : DataFrame) :
  StronglySorted lt (map fst (groupby_mean compare key rows)) /\
  (forall k m,
      In (k, m) (groupby_mean compare key rows) <->
      (exists r, In r rows /\ key r = Some k) /\
      m = Series_mean
            (map salary_in_usd (filter (has_key compare key k) rows))).
Proof.
  destruct (groupby_grouped rows) as (Hs & Hok & Hkeys).
  unfold groupby_mean; split.
  - rewrite map_map; simpl; exact Hs.
  - intros k m; rewrite in_map_iff; split.
    + intros ([k' rs] & E & Hg); simpl in E.
      injection E as Ek Em; subst k' m.
      rewrite Forall_forall in Hok; destruct (Hok _ Hg) as [Hne Hrs].
      simpl in *; split; [| rewrite <- Hrs; reflexivity].
      destruct rs as [| r rs]; [congruence |].
      assert (Hin : In r (filter (has_key compare key k) rows))
        by (rewrite <- Hrs; left; reflexivity).
      apply filter_In in Hin; destruct Hin as [Hin Hk].
      exists r; split; [exact Hin | apply has_key_true, Hk].
    + intros ((r & Hin & Hk) & ->).
      pose proof (Hkeys r k Hin Hk) as Hkey.
      apply in_map_iff in Hkey; destruct Hkey as ([k' rs] & E & Hg).
      simpl in E; subst k'.
      exists (k, rs); split; [| exact Hg].
      rewrite Forall_forall in Hok; destruct (Hok _ Hg) as [_ Hrs].
      simpl in *; rewrite Hrs; reflexivity.
Qed.

End GroupByFacts.

(** ** The yearly mean series *)

Lemma has_key_year (y : Z) (r : Row) :
  has_key Z.compare (fun r' => Some (work_year r')) y r = (work_year r =? y).
Proof.
  unfold has_key.
  destruct (Z.compare_spec (work_year r) y), (Z.eqb_spec (work_year r) y);
    try reflexivity; lia.
Qed.

Lemma fold_left_add_shift (l : list Z) (a : Z) :
  fold_left Z.add l a = a + fold_right Z.add 0 l.
Proof.
  revert a; induction l as [| x l IH]; intros a; simpl; [lia |].
  rewrite IH; lia.
Qed.

Lemma Series_sum_fold_right (col : list Z) :
  Series_sum col = fold_right Z.add 0 col.
Proof. unfold Series_sum; rewrite fold_left_add_shift; lia. Qed.


(** *** Double precision *)

Lemma Qred_inject_Z (z : Z) : Qred (inject_Z z) = inject_Z z.
Proof.
  unfold Qred, inject_Z.
  pose proof (Z.ggcd_gcd z 1) as Hg.
  pose proof (Z.ggcd_correct_divisors z 1) as Hd.
  destruct (Z.ggcd z 1) as [g [a b]]; simpl in *.
  rewrite Z.gcd_1_r in Hg; subst g.
  destruct Hd as [Ha Hb]; rewrite Z.mul_1_l in Ha, Hb.
  subst a b; reflexivity.
Qed.

Lemma round_half_even_comp (p q : Q) :
  p == q -> round_half_even p = round_half_even q.
Proof.
  intros H; unfold round_half_even.
  rewrite (Qfloor_comp p q H).
  assert (E : Qcompare ((p - inject_Z (Qfloor q)) * 2) 1
              = Qcompare ((q - inject_Z (Qfloor q)) * 2) 1).
  { apply Qcompare_comp; [rewrite H |]; reflexivity. }
  rewrite E; reflexivity.
Qed.

Lemma round_half_even_integer (z : Z) : round_half_even (inject_Z z) = z.
Proof.
  unfold round_half_even; rewrite Qfloor_Z.
  destruct (Qcompare ((inject_Z z - inject_Z z) * 2) 1) eqn:E.
  - apply Qeq_alt in E; lra.
  - reflexivity.
  - apply Qgt_alt in E; lra.
Qed.

Lemma round_double_comp (p q : Q) : p == q -> round_double p = round_double q.
Proof.
  intros H; unfold round_double; rewrite (Qred_complete p q H); reflexivity.
Qed.

Lemma pow2_nonzero (e : Z) : 0 <= e -> ~ inject_Z (2 ^ e) == 0.
Proof.
  intros He H.
  assert (0 < 2 ^ e) by (apply Z.pow_pos_nonneg; lia).
  unfold Qeq in H; simpl in H; lia.
Qed.

Lemma scale_down (k e : Z) :
  0 <= e -> scale (inject_Z (k * 2 ^ e)) e == inject_Z k.
Proof.
  intros He; unfold scale.
  destruct (Z.leb_spec 0 e) as [_ | Hc]; [| lia].
  rewrite inject_Z_mult; field; apply pow2_nonzero; exact He.
Qed.

Lemma scale_up (k e : Z) :
  0 <= e -> scale (inject_Z k) (- e) == inject_Z (k * 2 ^ e).
Proof.
  intros He; unfold scale.
  destruct (Z.leb_spec 0 (- e)) as [Hc | Hc].
  - assert (e = 0) by lia; subst e.
    change (- 0) with 0; change (2 ^ 0) with 1.
    rewrite Z.mul_1_r; field.
  - rewrite Z.opp_involutive, inject_Z_mult; reflexivity.
Qed.

(** An integer of magnitude at most 2^53 is a double. *)
Lemma round_double_integer (z : Z) :
  Z.abs z <= 2 ^ 53 -> round_double (inject_Z z) = inject_Z z.
Proof.
  intros Hz; unfold round_double.
  rewrite Qred_inject_Z; cbn [Qnum Qden inject_Z].
  destruct (Z.eqb_spec z 0) as [-> | Hne]; [reflexivity |].
  assert (Hpos : 0 < Z.abs z) by lia.
  destruct (Z.log2_spec (Z.abs z) Hpos) as [Hlo Hhi].
  assert (Hl0 : 0 <= Z.log2 (Z.abs z)) by apply Z.log2_nonneg.
  assert (Hl53 : Z.log2 (Z.abs z) <= 53).
  { rewrite <- (Z.log2_pow2 53) by lia; apply Z.log2_le_mono; exact Hz. }
  unfold binary_exponent.
  change (Z.log2 1) with 0; rewrite Z.sub_0_r.
  rewrite (Z.max_l 0 (- Z.log2 (Z.abs z))) by lia.
  rewrite (Z.max_r 0 (Z.log2 (Z.abs z))) by lia.
  destruct (Z.ltb_spec (Z.abs z * 2 ^ 0) (1 * 2 ^ Z.log2 (Z.abs z))) as [Hc | _];
    [change (2 ^ 0) with 1 in Hc; lia |].
  remember (Z.log2 (Z.abs z) - 52) as e eqn:He.
  assert (Hk : exists k, scale (inject_Z z) e == inject_Z k /\
                         scale (inject_Z k) (- e) == inject_Z z).
  { destruct (Z.le_gt_cases 0 e) as [Hpe | Hne'].
    - assert (Hdiv : exists k, z = k * 2 ^ e).
      { destruct (Z.eq_dec e 0) as [E0 | E0].
        - exists z; rewrite E0; change (2 ^ 0) with 1; lia.
        - assert (E1 : e = 1) by lia.
          assert (E53 : Z.log2 (Z.abs z) = 53) by lia.
          rewrite E53 in Hlo.
          assert (Habs : Z.abs z = 2 ^ 53) by lia.
          rewrite E1; change (2 ^ 1) with 2.
          exists (z / 2).
          destruct (Z.abs_spec z) as [[_ E] | [_ E]]; rewrite E in Habs.
          + rewrite Habs; reflexivity.
          + replace z with (- 2 ^ 53) by lia; reflexivity. }
      destruct Hdiv as [k Hk]; exists k; split.
      + rewrite Hk; apply scale_down; exact Hpe.
      + rewrite Hk; apply scale_up; exact Hpe.
    - exists (z * 2 ^ (- e)); split.
      + rewrite <- (Z.opp_involutive e) at 1; apply scale_up; lia.
      + apply scale_down; lia. }
  destruct Hk as (k & Hk1 & Hk2).
  rewrite (round_half_even_comp _ _ Hk1), round_half_even_integer.
  rewrite (Qred_complete _ _ Hk2); apply Qred_inject_Z.
Qed.

Lemma magnitude_sum (col : list Z) :
  Z.abs (fold_right Z.add 0 col) <= magnitude col.
Proof.
  induction col as [| x col IH]; simpl; lia.
Qed.

Lemma magnitude_filter {A : Type} (f : A -> Z) (keep : A -> bool)
  (l : list A) :
  magnitude (map f (filter keep l)) <= magnitude (map f l).
Proof.
  induction l as [| x l IH]; simpl; [lia |].
  destruct (keep x); simpl; lia.
Qed.

(** [Series.mean] of a column that is not empty is the double nearest to
    the quotient of its sum by its length. *)
Lemma Series_mean_double (col : list Z) :
  col <> [] -> exists q, Series_mean col = Num q /\ double_mean_of col q.
Proof.
  intros Hne; destruct col as [| x col]; [congruence |].
  eexists; split; [reflexivity |].
  split; [exact Hne |].
  rewrite Series_sum_fold_right; reflexivity.
Qed.

(** When the length divides the sum and the magnitudes stay within 2^53,
    that double is the arithmetic mean itself. *)
Lemma double_mean_exact (col : list Z) (q : Q) :
  magnitude col <= 2 ^ 53 ->
  (Z.of_nat (List.length col) | fold_right Z.add 0 col) ->
  double_mean_of col q -> arithmetic_mean_of col q.
Proof.
  intros Hm [k Hk] [Hne ->]; split; [exact Hne |].
  set (n := Z.of_nat (List.length col)) in *.
  assert (Hn : 0 < n).
  { unfold n; destruct col; [congruence | simpl List.length; lia]. }
  assert (Hq : inject_Z (fold_right Z.add 0 col) / inject_Z n == inject_Z k).
  { rewrite Hk, inject_Z_mult; field.
    intros H; unfold Qeq in H; simpl in H; lia. }
  rewrite (round_double_comp _ _ Hq), round_double_integer.
  - rewrite Hk, inject_Z_mult; reflexivity.
  - pose proof (magnitude_sum col) as Hs; rewrite Hk in Hs; nia.
Qed.

(** C7, as the script behaves.  The yearly series lists the years in
    strictly ascending order, and a year is listed exactly when some
    filtered row has it.  While the salaries add up to at most 2^53 in
    magnitude, the value listed for a year is the float64 quotient of the
    sum of that year's salaries by their number: the double nearest to
    their arithmetic mean, and the arithmetic mean itself whenever the
    number of rows divides the sum.  With salaries 100 and 200 in 2020 and
    300 in 2021 the series is [(2020, 150); (2021, 300)], in whichever
    order the rows come. *)
Theorem yearly_mean_series (flt : DataFrame) :
  StronglySorted Z.lt (map fst (mean_salary_year flt)) /\
  (forall y, In y (map fst (mean_salary_year flt)) <->
             exists r, In r flt /\ work_year r = y) /\
  (magnitude (map salary_in_usd flt) <= 2 ^ 53 ->
   forall y m,
     In (y, m) (mean_salary_year flt) ->
     exists q, m = Num q /\
       double_mean_of
         (map salary_in_usd (filter (fun r => work_year r =? y) flt)) q /\
       ((Z.of_nat
           (List.length
              (map salary_in_usd (filter (fun r => work_year r =? y) flt)))
         | fold_right Z.add 0
             (map salary_in_usd (filter (fun r => work_year r =? y) flt))) ->
        arithmetic_mean_of
          (map salary_in_usd (filter (fun r => work_year r =? y) flt)) q)) /\
  (forall r1 r2 r3,
      work_year r1 = 2020 -> salary_in_usd r1 = 100 ->
      work_year r2 = 2020 -> salary_in_usd r2 = 200 ->
      work_year r3 = 2021 -> salary_in_usd r3 = 300 ->
      In flt [[r1; r2; r3]; [r1; r3; r2]; [r2; r1; r3]; [r2; r3; r1];
              [r3; r1; r2]; [r3; r2; r1]] ->
      mean_salary_year flt = [(2020, Num (150 # 1)); (2021, Num (300 # 1))]).
Proof.
  destruct (groupby_mean_spec Z.compare Z.lt Z.compare_spec Z.lt_irrefl
              Z.lt_trans (fun r => Some (work_year r)) flt) as [Hs Hin].
  fold (mean_salary_year flt) in Hs, Hin.
  assert (Hfilter : forall y,
             filter (has_key Z.compare (fun r => Some (work_year r)) y) flt
             = filter (fun r => work_year r =? y) flt).
  { intros y; apply filter_ext; intros r; apply has_key_year. }
  split; [exact Hs |]; split; [| split].
  - intros y; rewrite in_map_iff; split.
    + intros ([y' m] & E & H); simpl in E; subst y'.
      apply Hin in H; destruct H as [(r & Hr & [= Hy]) _]; eauto.
    + intros (r & Hr & Hy).
      exists (y, Series_mean
                   (map salary_in_usd
                      (filter (has_key Z.compare
                                 (fun r' => Some (work_year r')) y) flt))).
      split; [reflexivity |].
      apply Hin; split; [| reflexivity].
      exists r; split; [exact Hr | congruence].
  - intros Hm y m H; apply Hin in H; destruct H as [(r & Hr & [= Hy]) ->].
    rewrite Hfilter.
    destruct (Series_mean_double
                (map salary_in_usd (filter (fun r' => work_year r' =? y) flt)))
      as (q & Hq & Hd).
    { intros E; apply map_eq_nil in E.
      assert (Hr' : In r (filter (fun r' => work_year r' =? y) flt)).
      { apply filter_In; split; [exact Hr | apply Z.eqb_eq; exact Hy]. }
      rewrite E in Hr'; exact Hr'. }
    exists q; split; [exact Hq |]; split; [exact Hd |].
    intros Hdiv; apply double_mean_exact; [| exact Hdiv | exact Hd].
    pose proof (magnitude_filter salary_in_usd
                  (fun r' => work_year r' =? y) flt); lia.
  - intros r1 r2 r3 Hy1 Hs1 Hy2 Hs2 Hy3 Hs3 Hflt.
    destruct r1, r2, r3; simpl in Hy1, Hs1, Hy2, Hs2, Hy3, Hs3; subst.
    simpl in Hflt.
    repeat (destruct Hflt as [<- | Hflt]); try contradiction;
      vm_compute; reflexivity.
Qed.

Lemma yearly_mean_series_witness :
  mean_salary_year Sample.df = [(2020, Num (150 # 1)); (2021, Num (300 # 1))].
Proof.
  apply (proj2 (proj2 (proj2 (yearly_mean_series Sample.df)))
           Sample.junior Sample.mid Sample.unlabelled); try reflexivity.
  left; reflexivity.
Defined.

(** C7, as the specification words it, fails: three salaries 1, 1 and 2 of
    one year have the arithmetic mean 4/3, which no double holds; the
    series lists the nearest double instead. *)
Lemma yearly_mean_is_rounded :
  mean_salary_year Sample.thirds
  = [(2020, Num (6004799503160661 # 4503599627370496))] /\
  magnitude (map salary_in_usd Sample.thirds) <= 2 ^ 53 /\
  ~ arithmetic_mean_of (map salary_in_usd Sample.thirds)
      (6004799503160661 # 4503599627370496).
Proof.
  split; [vm_compute; reflexivity |].
  split; [vm_compute; discriminate |].
  intros [_ H]; vm_compute in H; discriminate H.
Qed.
(** ** Rows without a country code *)

Section GroupMembership.

Context {K : Type}.
Variable compare : K -> K -> comparison.
Variable key : Row -> option K.

Lemma in_groups_add_self (k : K) (r : Row) (gs : list (K * DataFrame)) :
  in_groups r (add_to_group compare k r gs).
Proof.
  induction gs as [| [k0 rs] rest IH]; simpl.
  - exists (k, [r]); simpl; auto.
  - destruct (compare k k0).
    + exists (k0, rs ++ [r]); split; [left; reflexivity |].
      simpl; apply in_or_app; right; left; reflexivity.
    + exists (k, [r]); simpl; auto.
    + destruct IH as (g & Hg & Hr); exists g; split; [right |]; assumption.
Qed.

Lemma in_groups_add_keep (k : K) (r r' : Row) (gs : list (K * DataFrame)) :
  in_groups r' gs -> in_groups r' (add_to_group compare k r gs).
Proof.
  induction gs as [| [k0 rs] rest IH]; intros (g & Hg & Hr); simpl in *.
  - contradiction.
  - destruct (compare k k0).
    + destruct Hg as [<- | Hg].
      * exists (k0, rs ++ [r]); split; [left; reflexivity |].
        simpl in *; apply in_or_app; left; exact Hr.
      * exists g; split; [right |]; assumption.
    + exists g; split; [right |]; assumption.
    + destruct Hg as [<- | Hg].
      * exists (k0, rs); split; [left; reflexivity | exact Hr].
      * destruct IH as (g' & Hg' & Hr'); [exists g; auto |].
        exists g'; split; [right |]; assumption.
Qed.

Lemma in_groups_add_inv (k : K) (r r' : Row) (gs : list (K * DataFrame)) :
  in_groups r' (add_to_group compare k r gs) -> r' = r \/ in_groups r' gs.
Proof.
  induction gs as [| [k0 rs] rest IH]; intros (g & Hg & Hr); simpl in *.
  - destruct Hg as [<- | []]; simpl in Hr; destruct Hr as [-> | []]; auto.
  - destruct (compare k k0).
    + destruct Hg as [<- | Hg]; simpl in Hr.
      * apply in_app_or in Hr; destruct Hr as [Hr | [-> | []]]; auto.
        right; exists (k0, rs); simpl; auto.
      * right; exists g; simpl; auto.
    + destruct Hg as [<- | Hg]; simpl in Hr.
      * destruct Hr as [-> | []]; auto.
      * right; exists g; auto.
    + destruct Hg as [<- | Hg].
      * right; exists (k0, rs); simpl; auto.
      * destruct IH as [-> | (g' & Hg' & Hr')]; [exists g; auto | auto |].
        right; exists g'; simpl; auto.
Qed.

Lemma fold_groups_includes (r : Row) (rows : DataFrame)
  (gs : list (K * DataFrame)) :
  in_groups r gs \/ (In r rows /\ key r <> None) ->
  in_groups r
    (fold_left
       (fun gs' r' =>
          match key r' with
          | Some k => add_to_group compare k r' gs'
          | None => gs'
          end)
       rows gs).
Proof.
  revert gs; induction rows as [| x rows IH]; intros gs H; simpl.
  - destruct H as [H | [[] _]]; exact H.
  - apply IH; destruct H as [H | [[<- | Hin] Hk]].
    + left; destruct (key x); [apply in_groups_add_keep |]; exact H.
    + left; destruct (key x); [apply in_groups_add_self | congruence].
    + right; auto.
Qed.

Lemma fold_groups_keyed (r : Row) (rows : DataFrame)
  (gs : list (K * DataFrame)) :
  in_groups r
    (fold_left
       (fun gs' r' =>
          match key r' with
          | Some k => add_to_group compare k r' gs'
          | None => gs'
          end)
       rows gs) ->
  in_groups r gs \/ (In r rows /\ key r <> None).
Proof.
  revert gs; induction rows as [| x rows IH]; intros gs H; simpl in *.
  - left; exact H.
  - destruct (IH _ H) as [Hg | [Hin Hk]]; [| right; auto].
    destruct (key x) as [k |] eqn:Ex; [| left; exact Hg].
    apply in_groups_add_inv in Hg; destruct Hg as [-> | Hg]; [| left; exact Hg].
    right; split; [left; reflexivity | congruence].
Qed.

(** A row takes part in a group-by exactly when it is in the table and its
    key is not missing. *)
Lemma groupby_membership (r : Row) (rows : DataFrame) :
  in_groups r (groupby compare key rows) <-> In r rows /\ key r <> None.
Proof.
  unfold groupby; split.
  - intros H; apply fold_groups_keyed in H.
    destruct H as [(g & [] & _) | H]; exact H.
  - intros H; apply fold_groups_includes; right; exact H.
Qed.

End GroupMembership.


Lemma fold_left_min_spec (l : list Z) (a : Z) :
  fold_left Z.min l a <= a /\
  (forall x, In x l -> fold_left Z.min l a <= x) /\
  (fold_left Z.min l a = a \/ In (fold_left Z.min l a) l).
Proof.
  revert a; induction l as [| y l IH]; intros a; simpl.
  - split; [lia |]; split; [intros x [] | left; reflexivity].
  - destruct (IH (Z.min a y)) as (H1 & H2 & H3).
    split; [lia |]; split.
    + intros x [<- | Hx]; [lia | apply H2; exact Hx].
    + destruct H3 as [H3 | H3]; [| right; right; exact H3].
      destruct (Z.min_spec a y) as [[_ E] | [_ E]]; rewrite E in *.
      * left; exact H3.
      * right; left; symmetry; exact H3.
Qed.

Lemma fold_left_max_spec (l : list Z) (a : Z) :
  a <= fold_left Z.max l a /\
  (forall x, In x l -> x <= fold_left Z.max l a) /\
  (fold_left Z.max l a = a \/ In (fold_left Z.max l a) l).
Proof.
  revert a; induction l as [| y l IH]; intros a; simpl.
  - split; [lia |]; split; [intros x [] | left; reflexivity].
  - destruct (IH (Z.max a y)) as (H1 & H2 & H3).
    split; [lia |]; split.
    + intros x [<- | Hx]; [lia | apply H2; exact Hx].
    + destruct H3 as [H3 | H3]; [| right; right; exact H3].
      destruct (Z.max_spec a y) as [[_ E] | [_ E]]; rewrite E in *.
      * right; left; symmetry; exact H3.
      * left; exact H3.
Qed.








(** A row that lacks the company-size label as well as the country code is
    left out of the company-size means too, on account of its label. *)
Lemma unmapped_residence_and_size_left_out :
  normalize Sample.to_int Sample.countries_get Sample.raw_ok = Ok Sample.df /\
  In Sample.mid (df_filtered (default_filters Sample.df) Sample.df) /\
  country_iso3 Sample.mid = None /\
  company_size Sample.mid = None /\
  map fst (mean_salary_company
             (df_filtered (default_filters Sample.df) Sample.df))
  = ["Large"; "Small"] /\
  ~ in_groups Sample.mid
      (groupby String.compare company_size
               (df_filtered (default_filters Sample.df) Sample.df)).
Proof.
  split; [reflexivity |].
  split; [right; left; reflexivity |].
  split; [reflexivity |].
  split; [reflexivity |].
  split; [vm_compute; reflexivity |].
  rewrite groupby_membership; intros [_ Hk]; apply Hk; reflexivity.
Qed.

(** ** The table is not written to *)

Lemma nth_error_snoc_old {A : Type} (l : list A) (x a : A) (p : nat) :
  nth_error l p = Some a -> nth_error (l ++ [x]) p = Some a.
Proof.
  intros H; rewrite nth_error_app1; [exact H |].
  apply nth_error_Some; congruence.
Qed.

Lemma nth_error_snoc_new {A : Type} (l : list A) (x : A) :
  nth_error (l ++ [x]) (List.length l) = Some x.
Proof.
  rewrite nth_error_app2, Nat.sub_diag by lia; reflexivity.
Qed.

Lemma replace_nth_other (p q : nat) (fr : Frame) (h : heap) :
  p <> q -> nth_error (replace_nth q fr h) p = nth_error h p.
Proof.
  revert p q; induction h as [| x h IH]; intros p q Hne; simpl.
  - destruct q; reflexivity.
  - destruct q as [| q], p as [| p]; simpl; try reflexivity; try congruence.
    apply IH; congruence.
Qed.

Lemma replace_nth_same (q : nat) (fr : Frame) (h : heap) :
  (q < List.length h)%nat -> nth_error (replace_nth q fr h) q = Some fr.
Proof.
  revert q; induction h as [| x h IH]; intros q Hq; simpl in *; [lia |].
  destruct q as [| q]; simpl; [reflexivity | apply IH; lia].
Qed.

(** C9. Running the filter and then the assignment of [remote_group], from
    any heap in which [df] names a table: the run succeeds, [df_filtered]
    names an object other than [df], every object of the starting heap, the
    table included, is the same afterwards, and the object [df_filtered]
    names holds the filtered rows with their buckets. *)
Theorem filter_and_bucket_frame (h : heap) (df : ref) (f : Filters)
  (table : Frame) :
  nth_error h df = Some table ->
  exists (flt : ref) (h' : heap),
    filter_and_bucket df f h = Some (flt, h') /\
    flt <> df /\
    (forall p o, nth_error h p = Some o -> nth_error h' p = Some o) /\
    nth_error h' df = Some table /\
    exists view,
      nth_error h' flt = Some view /\
      frame_rows view = df_filtered f (frame_rows table) /\
      frame_remote_group view
      = Some (map (fun r => remote_group (remote_ratio r)) (frame_rows view)).
Proof.
  intros Hdf.
  assert (Hlt : (df < List.length h)%nat) by (apply nth_error_Some; congruence).
  set (masked :=
         {| frame_rows :=
              getitem_mask (frame_rows table)
                           (map (selected f) (frame_rows table));
            frame_remote_group :=
              option_map
                (fun col =>
                   getitem_mask col (map (selected f) (frame_rows table)))
                (frame_remote_group table) |}).
  set (view :=
         {| frame_rows := frame_rows masked;
            frame_remote_group :=
              Some (map (fun r => remote_group (remote_ratio r))
                        (frame_rows masked)) |}).
  set (h2 := (h ++ [masked]) ++ [masked]).
  assert (Hnew : nth_error h2 (List.length (h ++ [masked])) = Some masked)
    by apply nth_error_snoc_new.
  assert (Hrun : filter_and_bucket df f h
                 = Some (List.length (h ++ [masked]),
                         replace_nth (List.length (h ++ [masked])) view h2)).
  { unfold filter_and_bucket, frame_getitem, frame_copy, set_remote_group,
      pbind, deref, new, assign, ret.
    rewrite Hdf; fold masked.
    rewrite (nth_error_snoc_new h masked).
    fold h2; rewrite Hnew; cbv beta iota; rewrite Hnew; reflexivity. }
  assert (Hold : forall p o, nth_error h p = Some o ->
                 nth_error (replace_nth (List.length (h ++ [masked])) view h2) p
                 = Some o).
  { intros p o Hp.
    assert ((p < List.length h)%nat) by (apply nth_error_Some; congruence).
    rewrite replace_nth_other by (rewrite length_app; simpl; lia).
    unfold h2; do 2 apply nth_error_snoc_old; exact Hp. }
  exists (List.length (h ++ [masked])),
    (replace_nth (List.length (h ++ [masked])) view h2).
  split; [exact Hrun |].
  split; [rewrite length_app; simpl; lia |].
  split; [exact Hold |].
  split; [apply Hold; exact Hdf |].
  exists view; split; [| split; reflexivity].
  apply replace_nth_same; unfold h2; rewrite !length_app; simpl; lia.
Qed.

Lemma filter_and_bucket_frame_witness :
  exists (flt : ref) (h' : heap),
    filter_and_bucket 0%nat Sample.wide [mkFrame Sample.df None]
    = Some (flt, h') /\
    flt <> 0%nat /\
    (forall p o, nth_error [mkFrame Sample.df None] p = Some o ->
                 nth_error h' p = Some o) /\
    nth_error h' 0%nat = Some (mkFrame Sample.df None) /\
    exists view,
      nth_error h' flt = Some view /\
      frame_rows view = df_filtered Sample.wide Sample.df /\
      frame_remote_group view
      = Some (map (fun r => remote_group (remote_ratio r)) (frame_rows view)).
Proof.
  apply (filter_and_bucket_frame [mkFrame Sample.df None] 0%nat Sample.wide
           (mkFrame Sample.df None)).
  reflexivity.
Defined.

(** By contrast, the same assignment made through the name [df] itself does
    write to the table: the frame guarantee above rests on the new objects
    that indexing and [copy] build. *)
Lemma set_remote_group_writes (h : heap) (df : ref) (table : Frame) :
  nth_error h df = Some table ->
  exists h',
    set_remote_group df h = Some (tt, h') /\
    nth_error h' df
    = Some {| frame_rows := frame_rows table;
              frame_remote_group :=
                Some (map (fun r => remote_group (remote_ratio r))
                          (frame_rows table)) |}.
Proof.
  intros Hdf.
  assert (Hlt : (df < List.length h)%nat) by (apply nth_error_Some; congruence).
  unfold set_remote_group, pbind, deref, assign.
  rewrite Hdf; cbv beta iota; rewrite Hdf.
  eexists; split; [reflexivity |].
  apply replace_nth_same; exact Hlt.
Qed.

(** * Further properties of the pipeline *)

(** ** The filter, composed and on empty selections *)

Lemma filter_twice {A : Type} (p q : A -> bool) (l : list A) :
  filter p (filter q l) = filter (fun x => q x && p x) l.
Proof.
  induction l as [| x l IH]; simpl; [reflexivity |].
  destruct (q x); simpl; [destruct (p x) |]; rewrite IH; reflexivity.
Qed.

(** X1. Filtering a filtered table: the two selections may be applied in either
    order, the outcome holds the rows both select, and applying a selection
    a second time changes nothing. *)
Theorem filter_compose (f g : Filters) (df : DataFrame) :
  df_filtered f (df_filtered g df) = df_filtered g (df_filtered f df) /\
  (forall r, In r (df_filtered f (df_filtered g df)) <->
             In r df /\ satisfies f r /\ satisfies g r) /\
  df_filtered f (df_filtered f df) = df_filtered f df.
Proof.
  rewrite !df_filtered_filter, !filter_twice; split; [| split].
  - apply filter_ext; intros r; apply andb_comm.
  - intros r; rewrite filter_In, andb_true_iff, !selected_satisfies; tauto.
  - apply filter_ext; intros r; destruct (selected f r); reflexivity.
Qed.

(** X2. A multiselect with nothing selected, or a slider range whose lower end
    is above its upper end, leaves no row. *)
Theorem filter_empty_selection (f : Filters) (df : DataFrame) :
  exp_filter f = [] \/ size_filter f = [] \/ country_filter f = [] \/
  year_filter f = [] \/ snd (remote_filter f) < fst (remote_filter f) ->
  df_filtered f df = [].
Proof.
  intros H; rewrite df_filtered_filter; apply filter_none; intros r _.
  destruct (selected f r) eqn:E; [| reflexivity].
  apply selected_satisfies in E; destruct E as (H1 & H2 & H3 & H4 & H5).
  destruct H as [H | [H | [H | [H | H]]]];
    try (rewrite H in *; contradiction); lia.
Qed.

Lemma filter_empty_selection_witness :
  df_filtered Sample.nothing_selected Sample.df = [].
Proof.
  apply (filter_empty_selection Sample.nothing_selected Sample.df).
  left; reflexivity.
Defined.

(** ** The sidebar's option lists *)

Section UniqueFacts.

Context {A : Type}.
Variable eqb : A -> A -> bool.
Hypothesis eqb_eq : forall a b, eqb a b = true <-> a = b.

Lemma unique_acc_spec (col seen : list A) :
  NoDup (Pandas.unique_acc eqb seen col) /\
  (forall x, In x (Pandas.unique_acc eqb seen col) <->
             In x col /\ ~ In x seen).
Proof.
  revert seen; induction col as [| y rest IH]; intros seen; simpl.
  - split; [constructor | intros x; tauto].
  - destruct (Pandas.isin eqb y seen) eqn:E.
    + apply (isin_In eqb eqb_eq) in E.
      destruct (IH seen) as [Hnd Hin]; split; [exact Hnd |].
      intros x; rewrite Hin; split; [tauto |].
      intros [[<- | Hx] Hs]; [contradiction | tauto].
    + assert (Hy : ~ In y seen).
      { intros Hy; apply (isin_In eqb eqb_eq) in Hy; congruence. }
      destruct (IH (y :: seen)) as [Hnd Hin]; split.
      * constructor; [| exact Hnd].
        intros Hc; apply Hin in Hc; destruct Hc as [_ Hc]; apply Hc; left;
          reflexivity.
      * intros x; simpl; rewrite Hin; simpl; split.
        -- intros [<- | [Hx Hs]]; [tauto |].
           split; [right; exact Hx | tauto].
        -- intros [[<- | Hx] Hs]; [left; reflexivity |].
           destruct (eqb y x) eqn:Eyx.
           ++ left; apply eqb_eq; exact Eyx.
           ++ right; split; [exact Hx |].
              intros [Heq | Hin']; [| exact (Hs Hin')].
              apply eqb_eq in Heq; congruence.
Qed.

Lemma unique_acc_subsequence (col seen : list A) :
  subsequence (Pandas.unique_acc eqb seen col) col.
Proof.
  revert seen; induction col as [| y rest IH]; intros seen; simpl.
  - constructor.
  - destruct (Pandas.isin eqb y seen); constructor; apply IH.
Qed.

Lemma unique_acc_app (l1 l2 seen : list A) :
  exists seen',
    (forall y, In y seen' <-> In y seen \/ In y l1) /\
    Pandas.unique_acc eqb seen (l1 ++ l2)
    = Pandas.unique_acc eqb seen l1 ++ Pandas.unique_acc eqb seen' l2.
Proof.
  revert seen; induction l1 as [| x l1 IH]; intros seen; simpl.
  - exists seen; split; [intros y; tauto | reflexivity].
  - destruct (Pandas.isin eqb x seen) eqn:E.
    + apply (isin_In eqb eqb_eq) in E.
      destruct (IH seen) as (seen' & Hs & Heq).
      exists seen'; split; [| exact Heq].
      intros y; rewrite Hs; split; [tauto |].
      intros [H | [<- | H]]; tauto.
    + destruct (IH (x :: seen)) as (seen' & Hs & Heq).
      exists seen'; split; [| rewrite Heq; reflexivity].
      intros y; rewrite Hs; simpl; tauto.
Qed.

Lemma unique_first_appearance (col : list A) :
  first_appearance_order col (Pandas.unique eqb col).
Proof.
  destruct (unique_acc_spec col []) as [Hnd Hin].
  split; [exact Hnd |]; split.
  - intros x; unfold Pandas.unique; rewrite Hin; simpl; tauto.
  - intros pre x post -> Hx; unfold Pandas.unique.
    destruct (unique_acc_app pre (x :: post) []) as (seen' & Hs & ->).
    simpl.
    destruct (Pandas.isin eqb x seen') eqn:E.
    + apply (isin_In eqb eqb_eq), Hs in E; destruct E as [[] | E].
      contradiction.
    + eexists _, _; split; [reflexivity |].
      intros y; destruct (unique_acc_spec pre []) as [_ Hpre].
      rewrite Hpre; simpl; tauto.
Qed.

End UniqueFacts.

(** X3. The three multiselects over labels and countries start with every
    value of their column listed once, in order of first appearance: the
    values listed before a value are those that occur in the column before
    its first occurrence. *)
Theorem default_options_distinct (df : DataFrame) :
  first_appearance_order (map experience_level df)
                         (exp_filter (default_filters df)) /\
  first_appearance_order (map company_size df)
                         (size_filter (default_filters df)) /\
  first_appearance_order (map employee_residence df)
                         (country_filter (default_filters df)).
Proof.
  unfold default_filters; simpl; repeat apply conj;
    first [ apply (unique_first_appearance _ option_string_eqb_eq)
          | apply (unique_first_appearance _ String.eqb_eq) ].
Qed.

Lemma insert_sorted_perm (x : Z) (l : list Z) :
  Permutation (x :: l) (insert_sorted x l).
Proof.
  induction l as [| y l IH]; simpl; [reflexivity |].
  destruct (x <=? y); [reflexivity |].
  rewrite perm_swap; constructor; exact IH.
Qed.

Lemma insert_sorted_sorted (x : Z) (l : list Z) :
  StronglySorted Z.le l -> StronglySorted Z.le (insert_sorted x l).
Proof.
  induction 1 as [| y l Hs IH Hy]; simpl.
  - repeat constructor.
  - destruct (Z.leb_spec x y).
    + constructor; [constructor; assumption |].
      constructor; [assumption |].
      eapply Forall_impl; [| exact Hy]; intros a Ha; simpl in Ha; lia.
    + constructor; [exact IH |].
      rewrite Forall_forall; intros a Ha; apply insert_sorted_In in Ha.
      destruct Ha as [-> | Ha]; [lia |].
      rewrite Forall_forall in Hy; apply Hy, Ha.
Qed.

(** [sorted] returns its argument rearranged in ascending order. *)
Lemma sorted_spec (l : list Z) :
  StronglySorted Z.le (sorted l) /\ Permutation l (sorted l).
Proof.
  induction l as [| x l [Hs Hp]]; simpl.
  - split; constructor.
  - split; [apply insert_sorted_sorted; exact Hs |].
    rewrite <- insert_sorted_perm; constructor; exact Hp.
Qed.

Lemma strictly_sorted_of_nodup (l : list Z) :
  StronglySorted Z.le l -> NoDup l -> StronglySorted Z.lt l.
Proof.
  induction 1 as [| x l Hs IH Hx]; intros Hnd; [constructor |].
  inversion Hnd as [| ? ? Hnot Hnd']; subst.
  constructor; [apply IH; exact Hnd' |].
  rewrite Forall_forall in *; intros a Ha.
  specialize (Hx a Ha); simpl in Hx.
  assert (a <> x) by (intros ->; exact (Hnot Ha)); lia.
Qed.

(** X4. The year multiselect starts with the years of the table in strictly
    ascending order, each year once. *)
Theorem default_years_ascending (df : DataFrame) :
  StronglySorted Z.lt (year_filter (default_filters df)) /\
  (forall y, In y (year_filter (default_filters df)) <->
             exists r, In r df /\ work_year r = y).
Proof.
  unfold default_filters; simpl.
  destruct (unique_first_appearance Z.eqb Z.eqb_eq (map work_year df))
    as (Hnd & Hin & _).
  destruct (sorted_spec (Pandas.unique Z.eqb (map work_year df))) as [Hs Hp].
  split.
  - apply strictly_sorted_of_nodup; [exact Hs |].
    eapply Permutation_NoDup; [exact Hp | exact Hnd].
  - intros y; rewrite sorted_In, Hin, in_map_iff; split.
    + intros (r & E & Hr); exists r; auto.
    + intros (r & Hr & E); exists r; auto.
Qed.

(** ** The scalar summary on a selection that is not empty *)

(** X5. The minimum and the maximum shown are salaries of the selection, and
    every salary of the selection lies between them. *)
Theorem Series_min_max_spec (col : list Z) :
  col <> [] ->
  exists lo hi,
    Series_min col = Num (inject_Z lo) /\
    Series_max col = Num (inject_Z hi) /\
    In lo col /\ In hi col /\
    forall x, In x col -> lo <= x <= hi.
Proof.
  intros Hne; destruct col as [| a rest]; [congruence |].
  destruct (fold_left_min_spec rest a) as (L1 & L2 & L3).
  destruct (fold_left_max_spec rest a) as (U1 & U2 & U3).
  exists (fold_left Z.min rest a), (fold_left Z.max rest a); simpl.
  split; [reflexivity |]; split; [reflexivity |].
  split; [destruct L3 as [-> | L3]; auto |].
  split; [destruct U3 as [-> | U3]; auto |].
  intros x [<- | Hx]; [lia |].
  split; [apply L2 | apply U2]; exact Hx.
Qed.

Lemma Series_min_max_spec_witness :
  exists lo hi,
    Series_min (map salary_in_usd Sample.df) = Num (inject_Z lo) /\
    Series_max (map salary_in_usd Sample.df) = Num (inject_Z hi) /\
    In lo (map salary_in_usd Sample.df) /\
    In hi (map salary_in_usd Sample.df) /\
    forall x, In x (map salary_in_usd Sample.df) -> lo <= x <= hi.
Proof.
  apply (Series_min_max_spec (map salary_in_usd Sample.df)).
  discriminate.
Defined.

(** ** The currency format *)


Lemma uint_chars_are_digits (d : Decimal.uint) :
  Forall (fun c => In c (list_ascii_of_string "0123456789"))
         (list_ascii_of_string (NilEmpty.string_of_uint d)).
Proof.
  induction d; simpl; constructor; try exact IHd; simpl; tauto.
Qed.

Lemma decimal_digits_are_digits (z : Z) :
  Forall (fun c => In c (list_ascii_of_string "0123456789"))
         (list_ascii_of_string (decimal_digits z)).
Proof.
  unfold decimal_digits, NilZero.string_of_uint.
  destruct (N.to_uint (Z.abs_N z)) eqn:E;
    try (rewrite <- E; apply uint_chars_are_digits).
  simpl; constructor; [simpl; tauto | constructor].
Qed.

Lemma group_thousands_rev_chars (n : nat) (l : list ascii) (c : ascii) :
  (List.length l <= n)%nat ->
  In c (group_thousands_rev l) -> c = ","%char \/ In c l.
Proof.
  revert l; induction n as [| n IH]; intros l Hn H.
  - destruct l; [contradiction | simpl in Hn; lia].
  - destruct l as [| x1 [| x2 [| x3 [| x4 rest]]]]; try (right; exact H).
    change (group_thousands_rev (x1 :: x2 :: x3 :: x4 :: rest))
      with (x1 :: x2 :: x3 :: ","%char :: group_thousands_rev (x4 :: rest))
      in H.
    destruct H as [<- | [<- | [<- | [<- | H]]]]; simpl; auto.
    apply IH in H; [| simpl in *; lia].
    destruct H as [-> | H]; [left; reflexivity |].
    right; right; right; right; exact H.
Qed.

Lemma group_thousands_rev_strip (n : nat) (l : list ascii) :
  (List.length l <= n)%nat ->
  Forall (fun c => c <> ","%char) l ->
  filter (fun c => negb (Ascii.eqb c ",")) (group_thousands_rev l) = l.
Proof.
  assert (Hkeep : forall c, c <> ","%char -> negb (Ascii.eqb c ",") = true).
  { intros c Hc; destruct (Ascii.eqb_spec c ","%char); [contradiction |].
    reflexivity. }
  revert l; induction n as [| n IH]; intros l Hn Hl.
  - destruct l; [reflexivity | simpl in Hn; lia].
  - destruct l as [| x1 [| x2 [| x3 [| x4 rest]]]];
      repeat match goal with
             | H : Forall _ (_ :: _) |- _ => inversion H; clear H; subst
             end;
      try (simpl; rewrite ?Hkeep by assumption; reflexivity).
    change (group_thousands_rev (x1 :: x2 :: x3 :: x4 :: rest))
      with (x1 :: x2 :: x3 :: ","%char :: group_thousands_rev (x4 :: rest)).
    cbn [filter]; rewrite !Hkeep by assumption.
    change (negb (Ascii.eqb "," ",")) with false; cbv iota.
    do 3 f_equal.
    apply (IH (x4 :: rest)); [simpl in *; lia |].
    constructor; assumption.
Qed.

Lemma group_thousands_rev_length (n : nat) (l : list ascii) :
  (List.length l <= n)%nat ->
  List.length (group_thousands_rev l)
  = (List.length l + (List.length l - 1) / 3)%nat.
Proof.
  revert l; induction n as [| n IH]; intros l Hn.
  - destruct l; [reflexivity | simpl in Hn; lia].
  - destruct l as [| x1 [| x2 [| x3 [| x4 rest]]]]; try reflexivity.
    change (group_thousands_rev (x1 :: x2 :: x3 :: x4 :: rest))
      with (x1 :: x2 :: x3 :: ","%char :: group_thousands_rev (x4 :: rest)).
    cbn [List.length] in *.
    rewrite (IH (x4 :: rest)) by (cbn [List.length]; lia).
    cbn [List.length].
    replace (S (S (S (S (List.length rest)))) - 1)%nat
      with (List.length rest + 1 * 3)%nat by lia.
    rewrite Nat.div_add by lia.
    replace (S (List.length rest) - 1)%nat with (List.length rest) by lia.
    lia.
Qed.

Lemma string_length_list (s : string) :
  String.length s = List.length (list_ascii_of_string s).
Proof.
  induction s as [| c s IH]; simpl; [reflexivity | rewrite IH; reflexivity].
Qed.

Lemma list_ascii_of_string_app (s t : string) :
  list_ascii_of_string (s ++ t)%string
  = list_ascii_of_string s ++ list_ascii_of_string t.
Proof.
  induction s as [| c s IH]; simpl; [reflexivity | rewrite IH; reflexivity].
Qed.

(** X8. A number is rendered with digits, thousands separators and at most
    a minus sign, whatever its value: the text "nan" is never the rendering
    of a number. *)
Theorem format_comma_0f_chars (q : Q) (c : ascii) :
  In c (list_ascii_of_string (format_comma_0f (Num q))) ->
  In c (list_ascii_of_string "-,0123456789").
Proof.
  unfold format_comma_0f, group_thousands.
  fold (decimal_digits (round_half_even (round_double q))).
  rewrite list_ascii_of_string_app, list_ascii_of_string_of_list_ascii.
  intros H; apply in_app_or in H; destruct H as [H | H].
  - destruct (Qlt_le_dec (round_double q) 0); simpl in H; [| contradiction].
    destruct H as [<- | []]; simpl; tauto.
  - apply in_rev in H.
    apply (group_thousands_rev_chars _ _ _ (le_n _)) in H.
    destruct H as [-> | H]; [simpl; tauto |].
    apply in_rev in H.
    pose proof (decimal_digits_are_digits (round_half_even (round_double q)))
      as Hd.
    rewrite Forall_forall in Hd; specialize (Hd c H).
    simpl in *; tauto.
Qed.

Lemma format_comma_0f_chars_witness :
  In "6"%char (list_ascii_of_string "-,0123456789").
Proof.
  apply (format_comma_0f_chars (1234567 # 2) "6"%char).
  vm_compute; tauto.
Defined.

Lemma digits_have_no_comma (z : Z) :
  Forall (fun c => c <> ","%char) (list_ascii_of_string (decimal_digits z)).
Proof.
  eapply Forall_impl; [| apply decimal_digits_are_digits].
  intros c Hc ->; simpl in Hc.
  repeat (destruct Hc as [Hc | Hc]; [discriminate Hc |]); exact Hc.
Qed.

(** X9. An integer amount that a double holds exactly (magnitude at most
    2^53; the minimum and the maximum are integers) is shown digit for
    digit: taking the separators out of the formatted text leaves the sign
    and the decimal digits, and the text has one separator for every three
    digits after the first. *)
Theorem format_integer_digits (z : Z) :
  Z.abs z <= 2 ^ 53 ->
  without_commas (format_comma_0f (Num (inject_Z z)))
  = (if z <? 0 then ["-"%char] else [])
      ++ list_ascii_of_string (decimal_digits z) /\
  String.length (format_comma_0f (Num (inject_Z z)))
  = ((if (z <? 0)%Z then 1 else 0)
     + String.length (decimal_digits z)
     + (String.length (decimal_digits z) - 1) / 3)%nat.
Proof.
  intros Hz; unfold without_commas, format_comma_0f, group_thousands.
  rewrite (round_double_integer z Hz), round_half_even_integer.
  fold (decimal_digits z).
  rewrite !string_length_list, list_ascii_of_string_app, filter_app,
    length_app, list_ascii_of_string_of_list_ascii, filter_rev, length_rev.
  rewrite (group_thousands_rev_strip _ _ (le_n _))
    by (apply Forall_rev, digits_have_no_comma).
  rewrite (group_thousands_rev_length _ _ (le_n _)), rev_involutive,
    length_rev.
  destruct (Qlt_le_dec (inject_Z z) 0) as [Hneg | Hpos].
  - change 0%Q with (inject_Z 0) in Hneg; rewrite <- Zlt_Qlt in Hneg.
    apply Z.ltb_lt in Hneg; rewrite Hneg; simpl; split; [reflexivity | lia].
  - change 0%Q with (inject_Z 0) in Hpos; rewrite <- Zle_Qle in Hpos.
    apply Z.ltb_ge in Hpos; rewrite Hpos; simpl; split; reflexivity.
Qed.

Lemma format_integer_digits_witness :
  without_commas (format_comma_0f (Num (inject_Z 1234567)))
  = (if 1234567 <? 0 then ["-"%char] else [])
      ++ list_ascii_of_string (decimal_digits 1234567) /\
  String.length (format_comma_0f (Num (inject_Z 1234567)))
  = ((if (1234567 <? 0)%Z then 1 else 0)
     + String.length (decimal_digits 1234567)
     + (String.length (decimal_digits 1234567) - 1) / 3)%nat.
Proof.
  apply (format_integer_digits 1234567).
  vm_compute; discriminate.
Defined.

(** ** The means by company size and by country *)

Lemma string_compare_spec (a b : string) :
  CompareSpec (a = b) (String_as_OT.lt a b) (String_as_OT.lt b a)
              (String.compare a b).
Proof.
  destruct (String.compare a b) eqn:E; constructor.
  - apply String_as_OT.cmp_eq; exact E.
  - apply String_as_OT.cmp_lt; exact E.
  - apply String_as_OT.cmp_lt.
    pose proof (String_as_OT.cmp_antisym b a) as H.
    unfold String_as_OT.cmp in *; rewrite E in H; exact H.
Qed.

Lemma string_lt_irrefl (a : string) : ~ String_as_OT.lt a a.
Proof.
  intros H; exact (String_as_OT.lt_not_eq _ _ H eq_refl).
Qed.

Lemma has_key_string (key : Row -> option string) (k : string) (r : Row) :
  has_key String.compare key k r = option_string_eqb (key r) (Some k).
Proof.
  pose proof (has_key_true String.compare String_as_OT.lt string_compare_spec
                string_lt_irrefl key k r) as H1.
  pose proof (option_string_eqb_eq (key r) (Some k)) as H2.
  destruct (has_key String.compare key k r),
    (option_string_eqb (key r) (Some k)); try reflexivity.
  - symmetry; apply H2, H1; reflexivity.
  - apply H1, H2; reflexivity.
Qed.

(** A table of means keyed by a text column that may have missing cells. *)
Lemma string_groupby_mean_spec (key : Row -> option string)
  (flt : DataFrame) :
  StronglySorted String_as_OT.lt
                 (map fst (groupby_mean String.compare key flt)) /\
  (forall label,
      In label (map fst (groupby_mean String.compare key flt)) <->
      exists r, In r flt /\ key r = Some label) /\
  (magnitude (map salary_in_usd flt) <= 2 ^ 53 ->
   forall label m,
     In (label, m) (groupby_mean String.compare key flt) ->
     exists q, m = Num q /\
       double_mean_of
         (map salary_in_usd
              (filter (fun r => option_string_eqb (key r) (Some label)) flt))
         q /\
       ((Z.of_nat
           (List.length
              (map salary_in_usd
                   (filter (fun r => option_string_eqb (key r) (Some label))
                           flt)))
         | fold_right Z.add 0
             (map salary_in_usd
                  (filter (fun r => option_string_eqb (key r) (Some label))
                          flt))) ->
        arithmetic_mean_of
          (map salary_in_usd
               (filter (fun r => option_string_eqb (key r) (Some label)) flt))
          q)).
Proof.
  destruct (groupby_mean_spec String.compare String_as_OT.lt
              string_compare_spec string_lt_irrefl String_as_OT.lt_trans
              key flt) as [Hs Hin].
  assert (Hfilter : forall k,
             filter (has_key String.compare key k) flt
             = filter (fun r => option_string_eqb (key r) (Some k)) flt).
  { intros k; apply filter_ext; intros r; apply has_key_string. }
  split; [exact Hs |]; split.
  - intros label; rewrite in_map_iff; split.
    + intros ([k m] & E & H); simpl in E; subst k.
      apply Hin in H; destruct H as [H _]; exact H.
    + intros H.
      exists (label,
              Series_mean
                (map salary_in_usd
                     (filter (has_key String.compare key label) flt))).
      split; [reflexivity |].
      apply Hin; split; [exact H | reflexivity].
  - intros Hm label m H; apply Hin in H; destruct H as [(r & Hr & Hk) ->].
    rewrite Hfilter.
    destruct (Series_mean_double
                (map salary_in_usd
                     (filter (fun r' => option_string_eqb (key r')
                                                          (Some label)) flt)))
      as (q & Hq & Hd).
    { intros E; apply map_eq_nil in E.
      assert (Hr' : In r (filter (fun r' => option_string_eqb (key r')
                                              (Some label)) flt)).
      { apply filter_In; split; [exact Hr |].
        apply option_string_eqb_eq; exact Hk. }
      rewrite E in Hr'; exact Hr'. }
    exists q; split; [exact Hq |]; split; [exact Hd |].
    intros Hdiv; apply double_mean_exact; [| exact Hdiv | exact Hd].
    pose proof (magnitude_filter salary_in_usd
                  (fun r' => option_string_eqb (key r') (Some label)) flt).
    lia.
Qed.

(** X10. The company-size means list the size labels of the selection in
    strictly ascending alphabetical order, and a label is listed exactly
    when some selected row carries it; rows without a label add nothing.
    While the salaries add up to at most 2^53 in magnitude, the value of a
    label is the float64 quotient of the sum of the salaries of the rows
    that carry it by their number: the double nearest to their arithmetic
    mean, and that mean itself when the number of rows divides the sum. *)
Theorem company_means_spec (flt : DataFrame) :
  StronglySorted String_as_OT.lt (map fst (mean_salary_company flt)) /\
  (forall label,
      In label (map fst (mean_salary_company flt)) <->
      exists r, In r flt /\ company_size r = Some label) /\
  (magnitude (map salary_in_usd flt) <= 2 ^ 53 ->
   forall label m,
     In (label, m) (mean_salary_company flt) ->
     exists q, m = Num q /\
       double_mean_of
         (map salary_in_usd
              (filter (fun r => option_string_eqb (company_size r)
                                                  (Some label)) flt))
         q /\
       ((Z.of_nat
           (List.length
              (map salary_in_usd
                   (filter (fun r => option_string_eqb (company_size r)
                                                       (Some label)) flt)))
         | fold_right Z.add 0
             (map salary_in_usd
                  (filter (fun r => option_string_eqb (company_size r)
                                                      (Some label)) flt))) ->
        arithmetic_mean_of
          (map salary_in_usd
               (filter (fun r => option_string_eqb (company_size r)
                                                   (Some label)) flt))
          q)).
Proof. apply string_groupby_mean_spec. Qed.

(** X11. The country means list the ISO alpha-3 codes of the selection in
    strictly ascending alphabetical order, and a code is listed exactly
    when some selected row has it.  While the salaries add up to at most
    2^53 in magnitude, the value of a code is the float64 quotient of the
    sum of the salaries of the rows that have it by their number: the double
    nearest to their arithmetic mean, and that mean itself when the number
    of rows divides the sum. *)
Theorem country_means_spec (flt : DataFrame) :
  StronglySorted String_as_OT.lt (map fst (mean_salary_country flt)) /\
  (forall code,
      In code (map fst (mean_salary_country flt)) <->
      exists r, In r flt /\ country_iso3 r = Some code) /\
  (magnitude (map salary_in_usd flt) <= 2 ^ 53 ->
   forall code m,
     In (code, m) (mean_salary_country flt) ->
     exists q, m = Num q /\
       double_mean_of
         (map salary_in_usd
              (filter (fun r => option_string_eqb (country_iso3 r)
                                                  (Some code)) flt))
         q /\
       ((Z.of_nat
           (List.length
              (map salary_in_usd
                   (filter (fun r => option_string_eqb (country_iso3 r)
                                                       (Some code)) flt)))
         | fold_right Z.add 0
             (map salary_in_usd
                  (filter (fun r => option_string_eqb (country_iso3 r)
                                                      (Some code)) flt))) ->
        arithmetic_mean_of
          (map salary_in_usd
               (filter (fun r => option_string_eqb (country_iso3 r)
                                                   (Some code)) flt))
          q)).
Proof. apply string_groupby_mean_spec. Qed.

(** ** Group-by loses and repeats no row *)

Lemma add_to_group_perm {K : Type} (compare : K -> K -> comparison)
  (k : K) (r : Row) (gs : list (K * DataFrame)) :
  Permutation (List.concat (map snd (add_to_group compare k r gs)))
              (List.concat (map snd gs) ++ [r]).
Proof.
  induction gs as [| [k0 rs] rest IH]; simpl.
  - reflexivity.
  - destruct (compare k k0); simpl.
    + rewrite <- !app_assoc; apply Permutation_app_head, Permutation_app_comm.
    + apply Permutation_cons_append.
    + rewrite IH, app_assoc; reflexivity.
Qed.

Lemma fold_groups_perm {K : Type} (compare : K -> K -> comparison)
  (key : Row -> option K) (rows : DataFrame) (gs : list (K * DataFrame)) :
  Permutation
    (List.concat (map snd
       (fold_left
          (fun gs' r' =>
             match key r' with
             | Some k => add_to_group compare k r' gs'
             | None => gs'
             end)
          rows gs)))
    (List.concat (map snd gs)
     ++ filter (fun r => match key r with Some _ => true | None => false end)
               rows).
Proof.
  revert gs; induction rows as [| x rows IH]; intros gs; simpl.
  - rewrite app_nil_r; reflexivity.
  - rewrite IH; destruct (key x) as [k |].
    + rewrite add_to_group_perm, <- app_assoc; reflexivity.
    + reflexivity.
Qed.

(** X12. Whatever the key column and the order on keys, the groups taken
    together hold the rows whose key is present, each as often as the table
    does: a group-by neither loses nor repeats such a row. *)
Theorem groupby_partition (K : Type) (compare : K -> K -> comparison)
  (key : Row -> option K) (df : DataFrame) :
  Permutation
    (List.concat (map snd (groupby compare key df)))
    (filter (fun r => match key r with Some _ => true | None => false end) df).
Proof.
  exact (fold_groups_perm compare key df []).
Qed.

(** ** What normalisation leaves alone *)

Lemma astype_int_values {C : Type} (to_int : C -> option Z) (col : list C)
  (zs : list Z) :
  Pandas.astype_int to_int col = Ok zs ->
  Forall2 (fun c z => to_int c = Some z) col zs.
Proof.
  revert zs; induction col as [| c col IH]; intros zs; simpl.
  - intros [= <-]; constructor.
  - destruct (to_int c) as [z |] eqn:E; [| discriminate].
    destruct (Pandas.astype_int to_int col) as [zs' |]; simpl; [| discriminate].
    intros [= <-]; constructor; [exact E | apply IH; reflexivity].
Qed.

Lemma normalize_rows {C : Type} (to_int : C -> option Z)
  (countries_get : string -> result (option Country))
  (raw : list (RawRow C)) (df : DataFrame) :
  normalize to_int countries_get raw = Ok df ->
  Forall2 (fun r n => n = build_row countries_get r (remote_ratio n) /\
                      to_int (raw_remote_ratio r) = Some (remote_ratio n))
          raw df.
Proof.
  unfold normalize.
  destruct (Pandas.astype_int to_int (map raw_remote_ratio raw)) as [zs |] eqn:E;
    simpl; [| discriminate].
  intros [= <-]; apply build_rows_spec, astype_int_values; exact E.
Qed.

(** X13. Normalisation keeps the number and the order of the rows and leaves
    the year, the salary and the residence of each row as loaded; the
    country code of a normalised row depends on its residence alone, and is
    the alpha-3 code of the entry the lookup finds, if it finds one. *)
Theorem normalize_preserves (C : Type) (to_int : C -> option Z)
  (countries_get : string -> result (option Country))
  (raw : list (RawRow C)) (df : DataFrame) :
  normalize to_int countries_get raw = Ok df ->
  List.length df = List.length raw /\
  map work_year df = map raw_work_year raw /\
  map salary_in_usd df = map raw_salary_in_usd raw /\
  map employee_residence df = map raw_employee_residence raw /\
  Forall
    (fun n =>
       forall code,
         country_iso3 n = Some code <->
         exists c, countries_get (employee_residence n) = Ok (Some c) /\
                   alpha_3 c = code)
    df.
Proof.
  intros H; apply normalize_rows in H.
  induction H as [| r n raw df [Hn _] _ (IH1 & IH2 & IH3 & IH4 & IH5)]; simpl.
  - repeat split; constructor.
  - rewrite IH1, IH2, IH3, IH4, Hn; simpl.
    repeat split; constructor; [| exact IH5].
    intros code; simpl; unfold iso2_to_iso3, try_except, bind.
    destruct (countries_get (raw_employee_residence r)) as [[c |] | e]; split;
      try discriminate.
    + intros [= <-]; exists c; auto.
    + intros (c' & [= <-] & <-); reflexivity.
    + intros (c' & Hc & _); discriminate.
    + intros (c' & Hc & _); discriminate.
Qed.

Lemma normalize_preserves_witness :
  List.length Sample.df = List.length Sample.raw_ok /\
  map work_year Sample.df = map raw_work_year Sample.raw_ok /\
  map salary_in_usd Sample.df = map raw_salary_in_usd Sample.raw_ok /\
  map employee_residence Sample.df
  = map raw_employee_residence Sample.raw_ok /\
  Forall
    (fun n =>
       forall code,
         country_iso3 n = Some code <->
         exists c, Sample.countries_get (employee_residence n) = Ok (Some c) /\
                   alpha_3 c = code)
    Sample.df.
Proof.
  apply (normalize_preserves Sample.cell Sample.to_int Sample.countries_get
           Sample.raw_ok Sample.df).
  reflexivity.
Defined.

(** ** Buckets of a filtered table *)

(** X14. The slider keeps its range within 0..100; a row of the filtered table
    then has no bucket exactly when its remote ratio is 0. *)
Theorem filtered_bucket_missing_iff_zero (f : Filters) (df : DataFrame)
  (r : Row) :
  0 <= fst (remote_filter f) ->
  snd (remote_filter f) <= 100 ->
  In r (df_filtered f df) ->
  (remote_group (remote_ratio r) = None <-> remote_ratio r = 0).
Proof.
  intros Hlo Hhi Hr.
  rewrite df_filtered_filter in Hr; apply filter_In in Hr.
  destruct Hr as [_ Hr]; apply selected_satisfies in Hr.
  destruct Hr as (_ & _ & Hrange & _).
  rewrite remote_group_cases.
  repeat match goal with
         | |- context [?a <=? ?b] => destruct (Z.leb_spec a b)
         end; split; intros Hx; try discriminate Hx; try reflexivity; lia.
Qed.

Lemma filtered_bucket_missing_iff_zero_witness :
  remote_group (remote_ratio Sample.junior) = None
  <-> remote_ratio Sample.junior = 0.
Proof.
  apply (filtered_bucket_missing_iff_zero Sample.wide Sample.df Sample.junior).
  - simpl; lia.
  - simpl; lia.
  - left; reflexivity.
Defined.

(** ** The charts show what was selected *)

(** X15. Every year of the yearly series is a selected year, every label of the
    company-size means is a selected size, and every code of the country
    means belongs to a row of the table whose residence is selected. *)
Theorem charts_respect_selection (f : Filters) (df : DataFrame) :
  (forall y, In y (map fst (mean_salary_year (df_filtered f df))) ->
             In y (year_filter f)) /\
  (forall label,
      In label (map fst (mean_salary_company (df_filtered f df))) ->
      In (Some label) (size_filter f)) /\
  (forall code,
      In code (map fst (mean_salary_country (df_filtered f df))) ->
      exists r, In r df /\ country_iso3 r = Some code /\
                In (employee_residence r) (country_filter f)).
Proof.
  assert (Hsel : forall r, In r (df_filtered f df) -> In r df /\ satisfies f r).
  { intros r Hr; rewrite df_filtered_filter in Hr; apply filter_In in Hr.
    destruct Hr as [Hin Hk]; split; [exact Hin |].
    apply selected_satisfies; exact Hk. }
  split; [| split].
  - intros y Hy.
    destruct (groupby_mean_spec Z.compare Z.lt Z.compare_spec Z.lt_irrefl
                Z.lt_trans (fun r => Some (work_year r)) (df_filtered f df))
      as [_ Hin].
    apply in_map_iff in Hy; destruct Hy as ([y' m] & E & Hm).
    simpl in E; subst y'.
    apply Hin in Hm; destruct Hm as [(r & Hr & [= Hy]) _].
    destruct (Hsel r Hr) as [_ (_ & _ & _ & _ & Hyear)].
    rewrite <- Hy; exact Hyear.
  - intros label Hl.
    destruct (string_groupby_mean_spec company_size (df_filtered f df))
      as (_ & Hin & _).
    apply Hin in Hl; destruct Hl as (r & Hr & Hsize).
    destruct (Hsel r Hr) as [_ (_ & Hs & _)].
    rewrite <- Hsize; exact Hs.
  - intros code Hc.
    destruct (string_groupby_mean_spec country_iso3 (df_filtered f df))
      as (_ & Hin & _).
    apply Hin in Hc; destruct Hc as (r & Hr & Hiso).
    destruct (Hsel r Hr) as [Hdf (_ & _ & _ & Hres & _)].
    exists r; auto.
Qed.
